(** * Trelica audit-log puller: a shallow embedding of [audit-logs/index.js]

    The development follows the source file top-down: the JavaScript
    values the class touches, the host functions it calls ([Date],
    [encodeURIComponent], [Buffer], [fs], [fetch], [console]), the class
    [TrelicaLogPuller] with its constructor and its six methods, and then
    the properties of the synchronisation loop.  The loading of [.env]
    files and [main], which only builds the configuration, are left out.

    A method is a function from the state of the instance and of the
    world to an outcome and a new state.  The world holds the files, the
    clock, the two HTTP endpoints and the trace of what the process did;
    [while (hasMore)] runs on fuel, one unit per pass. *)

From Stdlib Require Import ZArith Ascii String List Lia DecimalString DecimalZ.
From stdpp Require Import base option gmap strings list.

Local Open Scope Z_scope.
Local Set Warnings "-register-all".

(** ** JavaScript values *)

(** Values that travel through JSON.  A number is kept as the text
    [Number.prototype.toString] gives for it, which is also how
    [JSON.stringify] prints it. *)
Inductive JSON : Type :=
| JNull
| JBool (b : bool)
| JNum (text : string)
| JStr (s : string)
| JArr (items : list JSON)
| JObj (fields : list (string * JSON)).

(** A JavaScript value that came out of JSON or is [undefined] ([None]). *)
Definition JsVal : Type := option JSON.

Definition undefined : JsVal := None.

#[global] Instance JSON_inhabited : Inhabited JSON := populate JNull.

Definition string_of_Z (z : Z) : string := NilZero.string_of_int (Z.to_int z).

Definition string_of_nat (n : nat) : string := string_of_Z (Z.of_nat n).

Definition string_eqb (a b : string) : bool := bool_decide (a = b).

(** [ToBoolean].  The only falsy number JSON can carry is zero, which
    prints as [0]. *)
Definition json_truthy (v : JSON) : bool :=
  match v with
  | JNull => false
  | JBool b => b
  | JNum t => negb (string_eqb t "0")
  | JStr s => negb (string_eqb s EmptyString)
  | JArr _ | JObj _ => true
  end.

Definition truthy (v : JsVal) : bool :=
  match v with
  | None => false
  | Some j => json_truthy j
  end.

(** [ToString], as a template literal applies it.  An array joins its
    elements with commas, printing [null] elements as nothing. *)
Fixpoint json_toString (v : JSON) : string :=
  match v with
  | JNull => "null"
  | JBool true => "true"
  | JBool false => "false"
  | JNum t => t
  | JStr s => s
  | JArr items =>
      String.concat ","
        (List.map (fun x => match x with JNull => EmptyString | _ => json_toString x end) items)
  | JObj _ => "[object Object]"
  end.

Definition js_toString (v : JsVal) : string :=
  match v with
  | None => "undefined"
  | Some j => json_toString j
  end.

(** Own-property lookup on the object a JSON text parsed to. *)
Fixpoint assoc (name : string) (fields : list (string * JSON)) : JsVal :=
  match fields with
  | [] => None
  | (k, v) :: rest => if string_eqb k name then Some v else assoc name rest
  end.

(** [v.name] for a name no built-in prototype defines: [None] is the
    TypeError of reading a property of [null]. *)
Definition get_prop (v : JSON) (name : string) : option JsVal :=
  match v with
  | JNull => None
  | JObj fields => Some (assoc name fields)
  | _ => Some undefined
  end.

(** An object literal as [JSON.stringify] sees it: a property whose value
    is [undefined] is left out. *)
Definition object_literal (props : list (string * JsVal)) : JSON :=
  JObj (omap (fun kv => match snd kv with
                        | Some v => Some (fst kv, v)
                        | None => None
                        end) props).

(** ** Host functions *)

(** *** Date (ECMAScript time values, milliseconds since the epoch) *)
Module JsDate.

Definition msPerDay : Z := 86400000.
Definition msPerHour : Z := 3600000.
Definition msPerMinute : Z := 60000.
Definition msPerSecond : Z := 1000.

Definition Day (t : Z) : Z := t / msPerDay.
Definition TimeWithinDay (t : Z) : Z := t mod msPerDay.

Definition isLeapYear (y : Z) : bool :=
  (y mod 4 =? 0) && (negb (y mod 100 =? 0) || (y mod 400 =? 0)).

Definition DaysInYear (y : Z) : Z := if isLeapYear y then 366 else 365.

Definition DayFromYear (y : Z) : Z :=
  365 * (y - 1970) + (y - 1969) / 4 - (y - 1901) / 100 + (y - 1601) / 400.

(** The year a day number falls in: the largest [y] with
    [DayFromYear y <= d].  The proportional guess is off by at most one. *)
Definition YearFromDay (d : Z) : Z :=
  let y0 := 1970 + (400 * d) / 146097 in
  if d <? DayFromYear y0 then y0 - 1
  else if DayFromYear (y0 + 1) <=? d then y0 + 1
  else y0.

Definition YearFromTime (t : Z) : Z := YearFromDay (Day t).

Definition InLeapYear (t : Z) : Z :=
  if isLeapYear (YearFromTime t) then 1 else 0.

Definition DayWithinYear (t : Z) : Z := Day t - DayFromYear (YearFromTime t).

(** Day number within the year on which month [m] (0-based) starts. *)
Definition monthStart (m leap : Z) : Z :=
  match m with
  | 0 => 0
  | 1 => 31
  | 2 => 59 + leap
  | 3 => 90 + leap
  | 4 => 120 + leap
  | 5 => 151 + leap
  | 6 => 181 + leap
  | 7 => 212 + leap
  | 8 => 243 + leap
  | 9 => 273 + leap
  | 10 => 304 + leap
  | _ => 334 + leap
  end.

Definition MonthFromTime (t : Z) : Z :=
  let d := DayWithinYear t in
  let l := InLeapYear t in
  if d <? 31 then 0
  else if d <? 59 + l then 1
  else if d <? 90 + l then 2
  else if d <? 120 + l then 3
  else if d <? 151 + l then 4
  else if d <? 181 + l then 5
  else if d <? 212 + l then 6
  else if d <? 243 + l then 7
  else if d <? 273 + l then 8
  else if d <? 304 + l then 9
  else if d <? 334 + l then 10
  else 11.

Definition DateFromTime (t : Z) : Z :=
  DayWithinYear t - monthStart (MonthFromTime t) (InLeapYear t) + 1.

Definition HourFromTime (t : Z) : Z := (t / msPerHour) mod 24.
Definition MinFromTime (t : Z) : Z := (t / msPerMinute) mod 60.
Definition SecFromTime (t : Z) : Z := (t / msPerSecond) mod 60.
Definition msFromTime (t : Z) : Z := t mod msPerSecond.

Definition MakeDay (year month date : Z) : Z :=
  let ym := year + month / 12 in
  let mn := month mod 12 in
  DayFromYear ym + monthStart mn (if isLeapYear ym then 1 else 0) + date - 1.

Definition MakeDate (day time : Z) : Z := day * msPerDay + time.

(** [None] is the time value NaN of an invalid Date. *)
Definition TimeClip (t : Z) : option Z :=
  if 8640000000000000 <? Z.abs t then None else Some t.

Section LocalTime.
(** [LocalTZA t isUTC] of the host: the offset of local time, in
    milliseconds, at UTC time [t] or at local time [t]. *)
Variable LocalTZA : Z -> bool -> Z.

Definition LocalTime (t : Z) : Z := t + LocalTZA t true.
Definition UTC (t : Z) : Z := t - LocalTZA t false.

(** [Date.prototype.getMonth]; only called on a valid date here. *)
Definition getMonth (t : Z) : Z := MonthFromTime (LocalTime t).

(** [Date.prototype.setMonth(month)]: the new time value. *)
Definition setMonth (tv : option Z) (month : Z) : option Z :=
  match tv with
  | None => None
  | Some t0 =>
      let t := LocalTime t0 in
      let dt := DateFromTime t in
      let newDate :=
        MakeDate (MakeDay (YearFromTime t) month dt) (TimeWithinDay t) in
      TimeClip (UTC newDate)
  end.
End LocalTime.

Fixpoint zeros (n : nat) : string :=
  match n with
  | O => EmptyString
  | S k => String "0" (zeros k)
  end.

(** Decimal digits of a non-negative number, left-padded with zeros. *)
Definition pad (width : nat) (z : Z) : string :=
  let digits := string_of_Z z in
  zeros (width - String.length digits) +:+ digits.

Definition isoYear (y : Z) : string :=
  if (0 <=? y) && (y <=? 9999) then pad 4 y
  else if y <? 0 then "-" +:+ pad 6 (- y)
  else "+" +:+ pad 6 y.

(** [Date.prototype.toISOString]; [None] is its RangeError on an
    invalid date. *)
Definition toISOString (tv : option Z) : option string :=
  match tv with
  | None => None
  | Some t =>
      Some (isoYear (YearFromTime t) +:+ "-" +:+ pad 2 (MonthFromTime t + 1)
            +:+ "-" +:+ pad 2 (DateFromTime t)
            +:+ "T" +:+ pad 2 (HourFromTime t)
            +:+ ":" +:+ pad 2 (MinFromTime t)
            +:+ ":" +:+ pad 2 (SecFromTime t)
            +:+ "." +:+ pad 3 (msFromTime t) +:+ "Z")
  end.

End JsDate.

(** *** encodeURIComponent and Buffer's base64

    A string is its UTF-8 bytes, which is what both functions work on. *)
Module Encoding.

Definition charAt (alphabet : string) (n : N) : ascii :=
  match String.get (N.to_nat n) alphabet with
  | Some c => c
  | None => "?"%char
  end.

Definition hexDigit : N -> ascii := charAt "0123456789ABCDEF".

Definition between (lo hi n : N) : bool := ((lo <=? n) && (n <=? hi))%N.

Definition isMark (c : ascii) : bool :=
  existsb (Ascii.eqb c) (list_ascii_of_string "-_.!~*'()").

(** The characters [encodeURIComponent] leaves alone. *)
Definition uriUnreserved (c : ascii) : bool :=
  let n := N_of_ascii c in
  between 65 90 n || between 97 122 n || between 48 57 n || isMark c.

Fixpoint encodeURIComponent (s : string) : string :=
  match s with
  | EmptyString => EmptyString
  | String c rest =>
      if uriUnreserved c then String c (encodeURIComponent rest)
      else
        let n := N_of_ascii c in
        String "%" (String (hexDigit (n / 16)) (String (hexDigit (n mod 16))
          (encodeURIComponent rest)))
  end.

Definition b64Digit : N -> ascii :=
  charAt "ABCDEFGHIJKLMNOPQRSTUVWXYZabcdefghijklmnopqrstuvwxyz0123456789+/".

(** [Buffer.from(s).toString('base64')]. *)
Fixpoint base64 (s : string) : string :=
  match s with
  | EmptyString => EmptyString
  | String a EmptyString =>
      let x := N_of_ascii a in
      String (b64Digit (x / 4)) (String (b64Digit (x mod 4 * 16)) "==")
  | String a (String b EmptyString) =>
      let x := N_of_ascii a in
      let y := N_of_ascii b in
      String (b64Digit (x / 4))
        (String (b64Digit (x mod 4 * 16 + y / 16))
          (String (b64Digit (y mod 16 * 4)) "="))
  | String a (String b (String c rest)) =>
      let x := N_of_ascii a in
      let y := N_of_ascii b in
      let z := N_of_ascii c in
      String (b64Digit (x / 4))
        (String (b64Digit (x mod 4 * 16 + y / 16))
          (String (b64Digit (y mod 16 * 4 + z / 64))
            (String (b64Digit (z mod 64)) (base64 rest))))
  end%N.

End Encoding.

(** ** The world outside the process *)

Inductive ErrorName := Error | TypeError | SyntaxError | RangeError | SystemError.

(** A thrown [Error] object: its class and its [message]. *)
Record JsError := mkError { errName : ErrorName; message : string }.

(** What is in a file: the two-space-indented [JSON.stringify] rendering
    of a value (equivalently, any text [JSON.parse] reads as that value),
    or text that [JSON.parse] rejects. *)
Inductive FileData :=
| Json (v : JSON)
| Garbled (text : string).

Record Request := {
  url : JsVal;
  method : string;
  headers : list (string * string);
  body : option string
}.

(** What [response.json()] resolves to, as the caller reads it: the
    fields it looks at.  A body that is JSON but not an object reads as
    all fields [undefined]. *)
Inductive Body (A : Type) :=
| NotJson (why : string)
| JsonNull
| JsonObject (fields : A).
Arguments NotJson {A} why.
Arguments JsonNull {A}.
Arguments JsonObject {A} fields.

(** The token endpoint's body: [{access_token, ...}] on success and
    [{error, ...}] otherwise. *)
Record TokenFields := { access_token : JsVal; error : JsVal }.

(** The log endpoint's body: [{results: [Record...], next?}] on success
    and [{title|message, ...}] otherwise.  [results] is an array of
    records when it is there; [None] is an absent or [null] field.
    [detail] is the [message] field of the body. *)
Record PageFields := {
  results : option (list JSON);
  next : JsVal;
  title : JsVal;
  detail : JsVal
}.

Inductive HttpOutcome (A : Type) :=
| Unreachable (e : JsError)
| Responded (status : Z) (payload : Body A).
Arguments Unreachable {A} e.
Arguments Responded {A} status payload.

(** What the process did: a line on the console, a request sent, a
    call of [fs.readFile], a file written, a timer waited for. *)
Inductive Event :=
| ConsoleLog (line : string)
| ConsoleError (line : string)
| Fetch (req : Request)
| ReadFile (path : string)
| WriteFile (path : string) (data : FileData)
| Timeout (ms : Z).

(** Files, clock and network.  [readDenied] and [writeDenied] are the
    paths [fs] refuses to open; [clock] is the time in milliseconds
    since the epoch, which the delay of the loop moves on; the two
    endpoints answer a request knowing everything that happened before
    it; [trace] lists the effects of the process, oldest first. *)
Record World := {
  files : gmap string FileData;
  readDenied : gset string;
  writeDenied : gset string;
  clock : Z;
  localTZA : Z -> bool -> Z;
  tokenEndpoint : list Event -> Request -> HttpOutcome TokenFields;
  logsEndpoint : list Event -> Request -> HttpOutcome PageFields;
  trace : list Event
}.

Definition emit (e : Event) (w : World) : World :=
  {| files := files w; readDenied := readDenied w; writeDenied := writeDenied w;
     clock := clock w; localTZA := localTZA w;
     tokenEndpoint := tokenEndpoint w; logsEndpoint := logsEndpoint w;
     trace := trace w ++ [e] |}.

Definition store (path : string) (data : FileData) (w : World) : World :=
  {| files := <[path := data]> (files w);
     readDenied := readDenied w; writeDenied := writeDenied w;
     clock := clock w; localTZA := localTZA w;
     tokenEndpoint := tokenEndpoint w; logsEndpoint := logsEndpoint w;
     trace := trace w |}.

Definition advance (ms : Z) (w : World) : World :=
  {| files := files w; readDenied := readDenied w; writeDenied := writeDenied w;
     clock := clock w + ms; localTZA := localTZA w;
     tokenEndpoint := tokenEndpoint w; logsEndpoint := logsEndpoint w;
     trace := trace w |}.

(** ** class TrelicaLogPuller *)

Record Config := {
  cfg_host : option string;
  cfg_clientId : string;
  cfg_clientSecret : string;
  cfg_bookmarkFile : option string;
  cfg_outputFile : option string;
  cfg_initialLookbackMonths : option Z
}.

(** The instance fields. *)
Record Puller := {
  host : string;
  clientId : string;
  clientSecret : string;
  bookmarkFile : string;
  outputFile : string;
  initialLookbackMonths : Z;
  accessToken : JsVal;
  bookmark : JsVal
}.

(** [s || d] on an optional string: absent and empty both give [d]. *)
Definition or_string (s : option string) (d : string) : string :=
  match s with
  | Some x => if string_eqb x EmptyString then d else x
  | None => d
  end.

(** [n || d] on an optional number: absent and [0] both give [d]. *)
Definition or_number (n : option Z) (d : Z) : Z :=
  match n with
  | Some x => if x =? 0 then d else x
  | None => d
  end.

Definition constructor (config : Config) : Puller :=
  {| host := or_string (cfg_host config) "app.trelica.com";
     clientId := cfg_clientId config;
     clientSecret := cfg_clientSecret config;
     bookmarkFile := or_string (cfg_bookmarkFile config) "trelica_bookmark.json";
     outputFile := or_string (cfg_outputFile config) "trelica_logs.json";
     initialLookbackMonths := or_number (cfg_initialLookbackMonths config) 3;
     accessToken := Some JNull;
     bookmark := Some JNull |}.

(** *** The monad of a method body

    A method runs on the instance and the world, and returns, throws, or
    is still inside its loop when the fuel runs out. *)
Record State := { this : Puller; world : World }.

Inductive Outcome (A : Type) :=
| Return (a : A)
| Throw (e : JsError)
| Running.
Arguments Return {A} a.
Arguments Throw {A} e.
Arguments Running {A}.

Definition M (A : Type) : Type := State -> Outcome A * State.

#[global] Instance M_ret : MRet M := fun A a s => (Return a, s).

#[global] Instance M_bind : MBind M := fun A B f m s =>
  match m s with
  | (Return a, s') => f a s'
  | (Throw e, s') => (Throw e, s')
  | (Running, s') => (Running, s')
  end.

Definition throw {A} (e : JsError) : M A := fun s => (Throw e, s).

Definition running {A} : M A := fun s => (Running, s).

(** [try { body } catch (error) { handler }] *)
Definition try_catch {A} (body : M A) (handler : JsError -> M A) : M A := fun s =>
  match body s with
  | (Throw e, s') => handler e s'
  | r => r
  end.

Definition with_world (f : World -> World) (s : State) : State :=
  {| this := this s; world := f (world s) |}.

Definition get_this : M Puller := fun s => (Return (this s), s).

Definition get_world : M World := fun s => (Return (world s), s).

Definition update_world (f : World -> World) : M unit := fun s =>
  (Return tt, with_world f s).

(** [this.accessToken = v] *)
Definition with_accessToken (v : JsVal) (p : Puller) : Puller :=
  {| host := host p; clientId := clientId p;
     clientSecret := clientSecret p; bookmarkFile := bookmarkFile p;
     outputFile := outputFile p;
     initialLookbackMonths := initialLookbackMonths p;
     accessToken := v; bookmark := bookmark p |}.

Definition set_accessToken (v : JsVal) : M unit := fun s =>
  (Return tt, {| this := with_accessToken v (this s); world := world s |}).

(** [this.bookmark = v] *)
Definition with_bookmark (v : JsVal) (p : Puller) : Puller :=
  {| host := host p; clientId := clientId p;
     clientSecret := clientSecret p; bookmarkFile := bookmarkFile p;
     outputFile := outputFile p;
     initialLookbackMonths := initialLookbackMonths p;
     accessToken := accessToken p; bookmark := v |}.

Definition set_bookmark (v : JsVal) : M unit := fun s =>
  (Return tt, {| this := with_bookmark v (this s); world := world s |}).

(** *** console, fs, fetch, timers *)

Definition console_log (line : string) : M unit := update_world (emit (ConsoleLog line)).

Definition console_error (line : string) : M unit := update_world (emit (ConsoleError line)).

(** The rejection of an [fs] call on a path the process may not open. *)
Definition denied (path : string) : JsError :=
  mkError SystemError ("EACCES: permission denied, open '" +:+ path +:+ "'").

(** [fs.readFile(path, 'utf8')] *)
Definition fs_readFile (path : string) : M FileData :=
  update_world (emit (ReadFile path));;
  w ← get_world;
  if decide (path ∈ readDenied w) then throw (denied path)
  else
    match files w !! path with
    | None =>
        throw (mkError SystemError
                 ("ENOENT: no such file or directory, open '" +:+ path +:+ "'"))
    | Some data => mret data
    end.

(** [fs.writeFile(path, JSON.stringify(value, null, 2))] *)
Definition fs_writeFile (path : string) (value : JSON) : M unit :=
  w ← get_world;
  if decide (path ∈ writeDenied w) then
    throw (denied path)
  else
    update_world (store path (Json value));;
    update_world (emit (WriteFile path (Json value))).

(** [JSON.parse(text)] *)
Definition JSON_parse (data : FileData) : M JSON :=
  match data with
  | Json v => mret v
  | Garbled text => throw (mkError SyntaxError ("Unexpected token in JSON: " +:+ text))
  end.

(** [fetch(url, init)]: the request goes out, then the promise settles. *)
Definition fetch {A} (endpoint : World -> list Event -> Request -> HttpOutcome A)
    (req : Request) : M (Z * Body A) :=
  w ← get_world;
  update_world (emit (Fetch req));;
  match endpoint w (trace w) req with
  | Unreachable e => throw e
  | Responded status payload => mret (status, payload)
  end.

(** [response.ok] *)
Definition ok {A} (response : Z * Body A) : bool :=
  (200 <=? fst response) && (fst response <=? 299).

(** [response.json()]; [None] is the value [null]. *)
Definition json {A} (response : Z * Body A) : M (option A) :=
  match snd response with
  | NotJson why => throw (mkError SyntaxError why)
  | JsonNull => mret None
  | JsonObject fields => mret (Some fields)
  end.

(** [value.name] on what [json()] gave. *)
Definition prop {A B} (value : option A) (name : string) (field : A -> B) : M B :=
  match value with
  | None =>
      throw (mkError TypeError
               ("Cannot read properties of null (reading '" +:+ name +:+ "')"))
  | Some fields => mret (field fields)
  end.

(** [new Date()] *)
Definition new_Date : M (option Z) :=
  w ← get_world; mret (JsDate.TimeClip (clock w)).

(** [date.toISOString()] *)
Definition toISOString (date : option Z) : M string :=
  match JsDate.toISOString date with
  | Some text => mret text
  | None => throw (mkError RangeError "Invalid time value")
  end.

(** [await new Promise(resolve => setTimeout(resolve, ms))] *)
Definition sleep (ms : Z) : M unit :=
  update_world (emit (Timeout ms));; update_world (advance ms).

(** [value.name] on a parsed JSON value. *)
Definition member (value : JSON) (name : string) : M JsVal :=
  match get_prop value name with
  | Some v => mret v
  | None =>
      throw (mkError TypeError
               ("Cannot read properties of null (reading '" +:+ name +:+ "')"))
  end.

(** [existingLogs.concat(logs)]: an array takes the elements of [logs], a
    string takes [logs] as text, anything else has no [concat] to call. *)
Definition js_concat (existingLogs : JSON) (logs : list JSON) : JsError + JSON :=
  match existingLogs with
  | JArr items => inr (JArr (items ++ logs))
  | JStr s => inr (JStr (s +:+ json_toString (JArr logs)))
  | JNull =>
      inl (mkError TypeError "Cannot read properties of null (reading 'concat')")
  | _ => inl (mkError TypeError "existingLogs.concat is not a function")
  end.

(** The value of an expression that may throw. *)
Definition eval {A} (r : JsError + A) : M A :=
  match r with
  | inl e => throw e
  | inr a => mret a
  end.

(** *** Methods *)

(** The request [authenticate] sends to [https://${host}/connect/token]. *)
Definition tokenRequest (p : Puller) : Request :=
  let url := "https://" +:+ host p +:+ "/connect/token" in
  let auth := Encoding.base64 (clientId p +:+ ":" +:+ clientSecret p) in
  {| url := Some (JStr url);
     method := "POST";
     headers := [("Authorization", "Basic " +:+ auth);
                 ("Content-Type", "application/x-www-form-urlencoded")];
     body := Some "grant_type=client_credentials" |}.

Definition authenticate : M unit :=
  p ← get_this;
  response ← fetch tokenEndpoint (tokenRequest p);
  if negb (ok response) then
    err ← json response;
    reason ← prop err "error" error;
    throw (mkError Error ("Authentication failed: " +:+ string_of_Z (fst response)
                          +:+ " - " +:+ js_toString reason))
  else
    data ← json response;
    token ← prop data "access_token" access_token;
    set_accessToken token;;
    console_log "Successfully authenticated".

(** The catch block of [loadBookmark]: start from X months ago. *)
Definition startFromLookback : M unit :=
  p ← get_this;
  w ← get_world;
  now ← new_Date;
  let lookbackDate :=
    match now with
    | Some t =>
        JsDate.setMonth (localTZA w) now
          (JsDate.getMonth (localTZA w) t - initialLookbackMonths p)
    | None => None
    end in
  sinceParam ← toISOString lookbackDate;
  set_bookmark
    (Some (JStr ("https://" +:+ host p +:+ "/api/audit/v1/logs?limit=1000&since="
                 +:+ Encoding.encodeURIComponent sinceParam)));;
  console_log ("No valid bookmark found, starting from "
               +:+ string_of_Z (initialLookbackMonths p) +:+ " months ago: "
               +:+ sinceParam).

Definition loadBookmark : M unit :=
  try_catch
    (p ← get_this;
     bookmarkData ← fs_readFile (bookmarkFile p);
     parsed ← JSON_parse bookmarkData;
     nextUrl ← member parsed "nextUrl";
     set_bookmark nextUrl;;
     console_log ("Loaded bookmark: " +:+ js_toString nextUrl))
    (fun _ =>
     (* File doesn't exist or is invalid, start from X months ago *)
     startFromLookback).

Definition saveBookmark (nextUrl : JsVal) : M unit :=
  p ← get_this;
  now ← new_Date;
  lastUpdated ← toISOString now;
  let bookmarkData :=
    object_literal [("nextUrl", nextUrl); ("lastUpdated", Some (JStr lastUpdated))] in
  fs_writeFile (bookmarkFile p) bookmarkData;;
  set_bookmark nextUrl;;
  console_log ("Bookmark saved: " +:+ js_toString nextUrl).

(** The request [fetchLogs] sends: [fetch(this.bookmark, {method: 'GET', headers})]. *)
Definition logsRequest (p : Puller) : Request :=
  {| url := bookmark p;
     method := "GET";
     headers := [("Authorization", "Bearer " +:+ js_toString (accessToken p));
                 ("Accept", "application/json");
                 ("Content-Type", "application/json")];
     body := None |}.

Definition fetchLogs : M (option PageFields) :=
  p ← get_this;
  if negb (truthy (accessToken p)) then
    throw (mkError Error "Not authenticated. Call authenticate() first.")
  else
    response ← fetch logsEndpoint (logsRequest p);
    if negb (ok response) then
      err ← json response;
      t ← prop err "title" title;
      reason ← (if truthy t then mret t else prop err "message" detail);
      throw (mkError Error ("Failed to fetch logs: " +:+ string_of_Z (fst response)
                            +:+ " - " +:+ js_toString reason))
    else
      json response.

(** The first half of [appendLogsToFile]: [existingLogs] starts as [[]]
    and takes what the file parses to when it can be read. *)
Definition readExistingLogs : M JSON :=
  p ← get_this;
  try_catch
    (existingData ← fs_readFile (outputFile p);
     JSON_parse existingData)
    (fun _ => (* File doesn't exist, start with empty array *) mret (JArr [])).

Definition appendLogsToFile (logs : list JSON) : M unit :=
  if (length logs =? 0)%nat then mret tt
  else
    p ← get_this;
    (* Read existing logs if file exists *)
    existingLogs ← readExistingLogs;
    (* Append new logs *)
    allLogs ← eval (js_concat existingLogs logs);
    (* Write back to file *)
    fs_writeFile (outputFile p) allLogs;;
    console_log ("Appended " +:+ string_of_nat (length logs) +:+ " logs to "
                 +:+ outputFile p).

Definition caughtUpNote : string := "Caught up to real-time - no new logs available".

(** One pass through the body of [while (hasMore)], the delay at its end
    apart: the new [hasMore] and [totalLogsPulled]. *)
Definition iteration (totalLogsPulled : nat) : M (bool * nat) :=
  console_log "Fetching logs...";;
  response ← fetchLogs;
  found ← prop response "results" results;
  let logs := default [] found in
  console_log ("Fetched " +:+ string_of_nat (length logs) +:+ " logs");;
  if (0 <? length logs)%nat then
    appendLogsToFile logs;;
    let totalLogsPulled := (totalLogsPulled + length logs)%nat in
    console_log ("Pulled " +:+ string_of_nat (length logs) +:+ " logs (total: "
                 +:+ string_of_nat totalLogsPulled +:+ ")");;
    (* Update bookmark if we have a next URL and got data *)
    continuation ← prop response "next" next;
    if truthy continuation then
      saveBookmark continuation;;
      mret (true, totalLogsPulled)
    else
      console_log "No next URL provided - reached end of available logs";;
      mret (false, totalLogsPulled)
  else
    (* No logs returned - we've caught up to real-time *)
    console_log "No new logs found - caught up to real-time";;
    p ← get_this;
    now ← new_Date;
    lastUpdated ← toISOString now;
    let bookmarkData :=
      object_literal [("nextUrl", bookmark p);
                      ("lastUpdated", Some (JStr lastUpdated));
                      ("note", Some (JStr caughtUpNote))] in
    fs_writeFile (bookmarkFile p) bookmarkData;;
    console_log ("Saved current position for next run: " +:+ js_toString (bookmark p));;
    mret (false, totalLogsPulled).

(** [while (hasMore) { ...; await delay(100) }], one unit of fuel per pass. *)
Fixpoint while_hasMore (fuel : nat) (hasMore : bool) (totalLogsPulled : nat)
    {struct fuel} : M nat :=
  if hasMore then
    match fuel with
    | O => running
    | S fuel' =>
        '(hasMore', total') ← iteration totalLogsPulled;
        (* Add a small delay to be respectful to the API *)
        sleep 100;;
        while_hasMore fuel' hasMore' total'
    end
  else mret totalLogsPulled.

(** [pullLogs()] resolves to [undefined]. *)
Definition pullLogs (fuel : nat) : M JsVal :=
  try_catch
    (console_log "Starting log pull process...";;
     (* Authenticate *)
     authenticate;;
     (* Load bookmark to resume from last position *)
     loadBookmark;;
     totalLogsPulled ← while_hasMore fuel true 0%nat;
     console_log ("Log pull completed. Total logs pulled: "
                  +:+ string_of_nat totalLogsPulled);;
     mret undefined)
    (fun e =>
     console_error ("Error during log pull: " +:+ message e);;
     throw e).

(** ** main

    [main] reads [process.env], checks the credentials, builds the
    instance and runs [pullLogs]; [process.exit] ends the process. *)

(** *** parseInt *)
Module JsNumber.

Definition byte (c : ascii) : N := N_of_ascii c.

(** The white space and line terminators [parseInt] skips, in UTF-8:
    TAB, LF, VT, FF, CR, SP, U+00A0, U+1680, U+2000..U+200A, U+2028,
    U+2029, U+202F, U+205F, U+3000 and U+FEFF. *)
Fixpoint trimStart (s : string) : string :=
  match s with
  | EmptyString => s
  | String c rest =>
      let n := byte c in
      if ((9 <=? n) && (n <=? 13) || (n =? 32))%N then trimStart rest
      else
        match rest with
        | String d rest1 =>
            if ((n =? 194) && (byte d =? 160))%N then trimStart rest1
            else
              match rest1 with
              | String e rest2 =>
                  let x := byte d in
                  let y := byte e in
                  if ((n =? 225) && (x =? 154) && (y =? 128)
                      || (n =? 226) && (x =? 128)
                         && ((128 <=? y) && (y <=? 138) || (y =? 168) || (y =? 169)
                             || (y =? 175))
                      || (n =? 226) && (x =? 129) && (y =? 159)
                      || (n =? 227) && (x =? 128) && (y =? 128)
                      || (n =? 239) && (x =? 187) && (y =? 191))%N
                  then trimStart rest2
                  else s
              | EmptyString => s
              end
        | EmptyString => s
        end
  end.

(** The value of a character as a digit of radix 10 or 16. *)
Definition digitValue (radix : Z) (c : ascii) : option Z :=
  let n := Z.of_N (byte c) in
  if (48 <=? n) && (n <=? 57) then Some (n - 48)
  else if (radix =? 16) && (97 <=? n) && (n <=? 102) then Some (n - 87)
  else if (radix =? 16) && (65 <=? n) && (n <=? 70) then Some (n - 55)
  else None.

(** The number the leading digits of [s] spell, after the ones already
    read; [None] when no digit was read at all. *)
Fixpoint digits (radix : Z) (s : string) (read : option Z) : option Z :=
  match s with
  | EmptyString => read
  | String c rest =>
      match digitValue radix c with
      | Some v => digits radix rest (Some (radix * default 0 read + v))
      | None => read
      end
  end.

(** [parseInt(string)] with no radix given.  [None] is NaN and both
    zeros are [0]; the argument [None] is [undefined], which reads as
    the text [undefined].  An integer beyond 2^53 stands for the double
    nearest to it. *)
Definition parseInt (string : option string) : option Z :=
  let inputString := default "undefined" string in
  let trimmed := trimStart inputString in
  let '(sign, unsigned) :=
    match trimmed with
    | String "-" rest => (-1, rest)
    | String "+" rest => (1, rest)
    | _ => (1, trimmed)
    end in
  let '(radix, numeral) :=
    match unsigned with
    | String "0" (String "x" rest) | String "0" (String "X" rest) => (16, rest)
    | _ => (10, unsigned)
    end in
  match digits radix numeral None with
  | Some mathInt => Some (sign * mathInt)
  | None => None
  end.

End JsNumber.

(** How [main] ended: its promise resolved, [process.exit(code)] was
    called, or [pullLogs] is still in its loop. *)
Inductive MainOutcome :=
| Resolved
| Exited (code : Z)
| StillRunning.

(** The [config] object [main] builds from [process.env]. *)
Definition envConfig (env : gmap string string) (clientId clientSecret : string) : Config :=
  {| cfg_host := Some (or_string (env !! "TRELICA_HOST") "app.trelica.com");
     cfg_clientId := clientId;
     cfg_clientSecret := clientSecret;
     cfg_bookmarkFile := Some (or_string (env !! "BOOKMARK_FILE") "trelica_bookmark.json");
     cfg_outputFile := Some (or_string (env !! "OUTPUT_FILE") "trelica_audit_logs.json");
     cfg_initialLookbackMonths :=
       Some (or_number (JsNumber.parseInt (env !! "INITIAL_LOOKBACK_MONTHS")) 3) |}.

Definition main (env : gmap string string) (fuel : nat) (w : World)
    : MainOutcome * World :=
  let clientId := or_string (env !! "TRELICA_CLIENT_ID") EmptyString in
  let clientSecret := or_string (env !! "TRELICA_CLIENT_SECRET") EmptyString in
  (* Validate required environment variables *)
  if string_eqb clientId EmptyString || string_eqb clientSecret EmptyString then
    (Exited 1,
     emit (ConsoleError "Please create a .env file with your credentials")
       (emit (ConsoleError
                "Error: TRELICA_CLIENT_ID and TRELICA_CLIENT_SECRET environment variables are required")
          w))
  else
    let logPuller := constructor (envConfig env clientId clientSecret) in
    match pullLogs fuel {| this := logPuller; world := w |} with
    | (Return _, s) => (Resolved, world s)
    | (Throw e, s) =>
        (Exited 1, emit (ConsoleError ("Log pull failed: " +:+ message e)) (world s))
    | (Running, s) => (StillRunning, world s)
    end.

(** ** Vocabulary of the properties *)

(** The cursor object the bookmark file holds. *)
Definition cursor_record (nextUrl : JsVal) (lastUpdated : string) (note : JsVal) : JSON :=
  object_literal [("nextUrl", nextUrl); ("lastUpdated", Some (JStr lastUpdated));
                  ("note", note)].

(** The timestamp [new Date().toISOString()] gives in a world, if any. *)
Definition timestamp (w : World) : option string :=
  JsDate.toISOString (JsDate.TimeClip (clock w)).

(** What [appendLogsToFile] finds in the output file: its content when
    it can be read and is JSON, the empty array otherwise. *)
Definition existing_logs (s : State) : JSON :=
  if decide (outputFile (this s) ∈ readDenied (world s)) then JArr []
  else
    match files (world s) !! (outputFile (this s)) with
    | Some (Json v) => v
    | _ => JArr []
    end.

(** [all] is some earlier content with the records [logs] added at its
    end: as the tail of an array or, when the file held a JSON string, as
    the text [concat] turns them into. *)
Definition appended (logs : list JSON) (all : JSON) : Prop :=
  (exists old, all = JArr (old ++ logs))
  \/ (exists text, all = JStr (text +:+ json_toString (JArr logs))).

(** The state after [appendLogsToFile] asked for the output file. *)
Definition after_read (s : State) : State :=
  with_world (emit (ReadFile (outputFile (this s)))) s.

(** The state after [appendLogsToFile] wrote [all] and logged it. *)
Definition wrote_logs (all : JSON) (n : nat) (s : State) : State :=
  with_world
    (fun w => emit (ConsoleLog ("Appended " +:+ string_of_nat n +:+ " logs to "
                                +:+ outputFile (this s)))
                (emit (WriteFile (outputFile (this s)) (Json all))
                   (store (outputFile (this s)) (Json all) w))) s.

(** The state after [saveBookmark nextUrl] at timestamp [iso]. *)
Definition saved_bookmark (nextUrl : JsVal) (iso : string) (s : State) : State :=
  {| this := with_bookmark nextUrl (this s);
     world :=
       emit (ConsoleLog ("Bookmark saved: " +:+ js_toString nextUrl))
         (emit (WriteFile (bookmarkFile (this s)) (Json (cursor_record nextUrl iso undefined)))
            (store (bookmarkFile (this s)) (Json (cursor_record nextUrl iso undefined))
               (world s))) |}.

(** In state [s] the next pass of the loop gets page [pg] from the log
    endpoint: a token is held and the request it is about to send is
    answered with a 2xx status and the JSON object [pg]. *)
Definition page_served (s : State) (pg : PageFields) : Prop :=
  truthy (accessToken (this s)) = true
  /\ exists status,
      200 <= status <= 299
      /\ logsEndpoint (world s) (trace (world s) ++ [ConsoleLog "Fetching logs..."])
           (logsRequest (this s))
         = Responded status (JsonObject pg).

(** The state of a pass once a page with [n] records has arrived. *)
Definition got_page (n : nat) (s : State) : State :=
  with_world
    (fun w => emit (ConsoleLog ("Fetched " +:+ string_of_nat n +:+ " logs"))
                (emit (Fetch (logsRequest (this s)))
                   (emit (ConsoleLog "Fetching logs...") w))) s.

(** The state of a pass once it has counted the [n] records of its page. *)
Definition counted (n total : nat) (s : State) : State :=
  with_world
    (emit (ConsoleLog ("Pulled " +:+ string_of_nat n +:+ " logs (total: "
                       +:+ string_of_nat total +:+ ")"))) s.

(** The state after the delay at the end of a pass. *)
Definition slept (s : State) : State :=
  with_world (fun w => advance 100 (emit (Timeout 100) w)) s.

(** An event that writes a cursor object to the bookmark file. *)
Definition persists_cursor (p : Puller) (e : Event) : Prop :=
  exists nextUrl lastUpdated note,
    e = WriteFile (bookmarkFile p) (Json (cursor_record nextUrl lastUpdated note)).

(** An event that writes the output file with [logs] at its end. *)
Definition persists_records (p : Puller) (logs : list JSON) (e : Event) : Prop :=
  exists all, appended logs all /\ e = WriteFile (outputFile p) (Json all).

(** In the list of events [l], every event with [P] comes after an
    event with [Q]. *)
Definition preceded (P Q : Event -> Prop) (l : list Event) : Prop :=
  forall before e after, l = before ++ e :: after -> P e -> exists r, r ∈ before /\ Q r.

(** A write of an array or of a string, as [appendLogsToFile] makes
    them; a cursor is an object. *)
Definition is_append (e : Event) : bool :=
  match e with
  | WriteFile _ (Json (JArr _)) | WriteFile _ (Json (JStr _)) => true
  | _ => false
  end.

Definition writes_to (path : string) (e : Event) : bool :=
  match e with
  | WriteFile p _ => string_eqb p path
  | _ => false
  end.

Definition is_fetch (e : Event) : bool :=
  match e with
  | Fetch _ => true
  | _ => false
  end.

(** The events between state [s] and the later state [s']. *)
Definition new_events (s s' : State) : list Event :=
  drop (length (trace (world s))) (trace (world s')).

(** Between [s] and [s'] the bookmark file was written. *)
Definition cursor_overwritten (s s' : State) : bool :=
  existsb (writes_to (bookmarkFile (this s))) (new_events s s').

(** "Now minus [n] months" as [Date] computes it: [setMonth] of the
    local month less [n], the day of the month and the time of day kept. *)
Definition monthsBefore (tz : Z -> bool -> Z) (now : option Z) (n : Z) : option Z :=
  match now with
  | Some t => JsDate.setMonth tz now (JsDate.getMonth tz t - n)
  | None => None
  end.

(** The log-listing endpoint of [host] with a page size of 1000 and the
    given [since] timestamp. *)
Definition seedLocator (host since : string) : string :=
  "https://" +:+ host +:+ "/api/audit/v1/logs?limit=1000&since="
  +:+ Encoding.encodeURIComponent since.

(** There is no cursor to load from the bookmark file: it is missing,
    cannot be read, is not JSON, or is the JSON text [null]. *)
Definition no_usable_bookmark (s : State) : Prop :=
  bookmarkFile (this s) ∈ readDenied (world s)
  \/ files (world s) !! (bookmarkFile (this s)) = None
  \/ (exists text, files (world s) !! (bookmarkFile (this s)) = Some (Garbled text))
  \/ files (world s) !! (bookmarkFile (this s)) = Some (Json JNull).

(** The configuration asks for a lookback of [n] months, 3 when it does
    not say. *)
Definition configured_lookback (config : Config) (n : Z) : Prop :=
  cfg_initialLookbackMonths config = Some n
  \/ (cfg_initialLookbackMonths config = None /\ n = 3).


(** The records the output file holds. *)
Definition sink (s : State) : list JSON :=
  match files (world s) !! (outputFile (this s)) with
  | Some (Json (JArr items)) => items
  | _ => []
  end.

(** The output file can serve as the sink of a run: it is not the
    bookmark file, it can be read, and it does not hold a JSON string. *)
Definition sink_ready (s : State) : Prop :=
  bookmarkFile (this s) <> outputFile (this s)
  /\ (outputFile (this s) ∉ readDenied (world s))
  /\ forall text, files (world s) !! (outputFile (this s)) <> Some (Json (JStr text)).

(** [s'] has the files, the permissions and the two paths of [s], and a
    longer trace without writes. *)
Definition same_store (s s' : State) : Prop :=
  files (world s') = files (world s)
  /\ readDenied (world s') = readDenied (world s)
  /\ outputFile (this s') = outputFile (this s)
  /\ bookmarkFile (this s') = bookmarkFile (this s)
  /\ exists added,
       trace (world s') = trace (world s) ++ added
       /\ List.filter is_append added = [].

(** 1 in a leap year, 0 otherwise. *)
Definition leap (y : Z) : Z := if JsDate.isLeapYear y then 1 else 0.

(** The number of days of month [m] (0-based) in a year with leap flag [l]. *)
Definition daysInMonth (m l : Z) : Z :=
  match m with
  | 1 => 28 + l
  | 3 | 5 | 8 | 10 => 30
  | _ => 31
  end.

(** ** Sample configuration and world

    A first run against a server that hands out a page of two records
    with a continuation [L2] and then an empty page. *)

Definition sample_config : Config :=
  {| cfg_host := None;
     cfg_clientId := "abc123def456";
     cfg_clientSecret := "supersecretkey789";
     cfg_bookmarkFile := None;
     cfg_outputFile := Some "trelica_audit_logs.json";
     cfg_initialLookbackMonths := Some 1 |}.

Definition page (records : option (list JSON)) (continuation : JsVal) : PageFields :=
  {| results := records; next := continuation; title := undefined; detail := undefined |}.

Definition sample_token : HttpOutcome TokenFields :=
  Responded 200 (JsonObject {| access_token := Some (JStr "tok"); error := undefined |}).

Definition sample_logs (r : Request) : HttpOutcome PageFields :=
  if string_eqb (js_toString (url r)) "L2"
  then Responded 200 (JsonObject (page (Some []) (Some JNull)))
  else Responded 200
         (JsonObject (page (Some [JStr "r1"; JStr "r2"]) (Some (JStr "L2")))).

(** 2025-08-25T10:30:45.123Z on a host running in UTC. *)
Definition sample_world : World :=
  {| files := ∅;
     readDenied := ∅;
     writeDenied := ∅;
     clock := 1756117845123;
     localTZA := fun _ _ => 0;
     tokenEndpoint := fun _ _ => sample_token;
     logsEndpoint := fun _ r => sample_logs r;
     trace := [] |}.

Definition sample_start : State :=
  {| this := constructor sample_config; world := sample_world |}.

(** The state [sample_start] is in after [authenticate] and [loadBookmark]. *)
Definition sample_syncing : State :=
  snd ((authenticate;; loadBookmark) sample_start).

(** The second pass of the sample run: the first page is in the output
    file, the cursor [L2] is in the bookmark file. *)
Definition sample_second_pass : State := slept (snd (iteration 0 sample_syncing)).

(** A later run whose server has one more record and no continuation. *)
Definition dead_end_state : State :=
  {| this := with_bookmark (Some (JStr "L1"))
               (with_accessToken (Some (JStr "tok")) (constructor sample_config));
     world :=
       {| files := {[ "trelica_bookmark.json" :=
                        Json (cursor_record (Some (JStr "L1"))
                                "2025-08-25T10:00:00.000Z" undefined) ]};
          readDenied := ∅;
          writeDenied := ∅;
          clock := 1756117845123;
          localTZA := fun _ _ => 0;
          tokenEndpoint := fun _ _ => sample_token;
          logsEndpoint := fun _ _ =>
            Responded 200 (JsonObject (page (Some [JStr "r3"]) (Some JNull)));
          trace := [] |} |}.

(** A server that answers 200 with an object that has no [results]. *)
Definition no_results_state : State :=
  {| this := with_bookmark (Some (JStr "L1"))
               (with_accessToken (Some (JStr "tok")) (constructor sample_config));
     world :=
       {| files := ∅;
          readDenied := ∅;
          writeDenied := ∅;
          clock := 1756117845123;
          localTZA := fun _ _ => 0;
          tokenEndpoint := fun _ _ => sample_token;
          logsEndpoint := fun _ _ => Responded 200 (JsonObject (page None undefined));
          trace := [] |} |}.

(** A token endpoint that answers 401 [{"error": "invalid_client"}]. *)
Definition rejected_state : State :=
  {| this := constructor sample_config;
     world :=
       {| files := {[ "trelica_audit_logs.json" := Json (JArr [JStr "r0"]) ]};
          readDenied := ∅;
          writeDenied := ∅;
          clock := 1756117845123;
          localTZA := fun _ _ => 0;
          tokenEndpoint := fun _ _ =>
            Responded 401
              (JsonObject {| access_token := undefined;
                             error := Some (JStr "invalid_client") |});
          logsEndpoint := fun _ r => sample_logs r;
          trace := [] |} |}.


(** An output file cut off in the middle of a write. *)
Definition garbled_state : State :=
  {| this := constructor sample_config;
     world :=
       {| files := {[ "trelica_audit_logs.json" := Garbled "[{" ]};
          readDenied := ∅;
          writeDenied := ∅;
          clock := 1756117845123;
          localTZA := fun _ _ => 0;
          tokenEndpoint := fun _ _ => sample_token;
          logsEndpoint := fun _ r => sample_logs r;
          trace := [] |} |}.

(** The sample configuration with a lookback of 0 months. *)
Definition zero_lookback_config : Config :=
  {| cfg_host := None;
     cfg_clientId := "abc123def456";
     cfg_clientSecret := "supersecretkey789";
     cfg_bookmarkFile := None;
     cfg_outputFile := Some "trelica_audit_logs.json";
     cfg_initialLookbackMonths := Some 0 |}.

Definition zero_lookback_start : State :=
  {| this := constructor zero_lookback_config; world := sample_world |}.

(** The start of the next run: a new instance on the files, the server
    and the later clock the sample run left. *)
Definition sample_rerun_start : State :=
  {| this := constructor sample_config; world := world (snd (pullLogs 2 sample_start)) |}.

(** ** Vocabulary of the further properties *)

(** The state after a request for the logs went out. *)
Definition sent (s : State) : State :=
  with_world (emit (Fetch (logsRequest (this s)))) s.

(** What [fetchLogs] throws on a status outside 200..299. *)
Definition fetchError (status : Z) (payload : Body PageFields) : JsError :=
  match payload with
  | NotJson why => mkError SyntaxError why
  | JsonNull => mkError TypeError "Cannot read properties of null (reading 'title')"
  | JsonObject fields =>
      mkError Error ("Failed to fetch logs: " +:+ string_of_Z status +:+ " - "
                     +:+ js_toString (if truthy (title fields) then title fields
                                      else detail fields))
  end.

(** What [fetchLogs] resolves to on a 2xx status. *)
Definition fetchResult (payload : Body PageFields) : Outcome (option PageFields) :=
  match payload with
  | NotJson why => Throw (mkError SyntaxError why)
  | JsonNull => Return None
  | JsonObject fields => Return (Some fields)
  end.

Definition notAuthenticated : JsError :=
  mkError Error "Not authenticated. Call authenticate() first.".

(** The state after [authenticate] got [token] from the token endpoint. *)
Definition authenticated (token : JsVal) (s : State) : State :=
  {| this := with_accessToken token (this s);
     world := emit (ConsoleLog "Successfully authenticated")
                (emit (Fetch (tokenRequest (this s))) (world s)) |}.

(** The state [pullLogs] is in when it calls [authenticate]. *)
Definition started (s : State) : State :=
  with_world (emit (ConsoleLog "Starting log pull process...")) s.

(** An event that writes a file. *)
Definition is_write (e : Event) : bool :=
  match e with
  | WriteFile _ _ => true
  | _ => false
  end.

(** The state a fresh instance with the bookmark file of [s] is in when
    the next run reaches [loadBookmark] in the world [s] left. *)
Definition next_run (config : Config) (token : JsVal) (s : State) : State :=
  {| this := with_accessToken token (constructor config); world := world s |}.

(** A token endpoint that answers 200 with an object without a token. *)
Definition no_token_state : State :=
  {| this := constructor sample_config;
     world :=
       {| files := {[ "trelica_audit_logs.json" := Json (JArr [JStr "r0"]) ]};
          readDenied := ∅;
          writeDenied := ∅;
          clock := 1756117845123;
          localTZA := fun _ _ => 0;
          tokenEndpoint := fun _ _ =>
            Responded 200 (JsonObject {| access_token := undefined; error := undefined |});
          logsEndpoint := fun _ r => sample_logs r;
          trace := [] |} |}.

(** A log endpoint that answers 429 with a title and a message. *)
Definition throttled_state : State :=
  {| this := with_bookmark (Some (JStr "L1"))
               (with_accessToken (Some (JStr "tok")) (constructor sample_config));
     world :=
       {| files := {[ "trelica_bookmark.json" :=
                        Json (cursor_record (Some (JStr "L1"))
                                "2025-08-25T10:00:00.000Z" undefined) ]};
          readDenied := ∅;
          writeDenied := ∅;
          clock := 1756117845123;
          localTZA := fun _ _ => 0;
          tokenEndpoint := fun _ _ => sample_token;
          logsEndpoint := fun _ _ =>
            Responded 429
              (JsonObject {| results := None; next := undefined;
                             title := Some (JStr "Too Many Requests");
                             detail := Some (JStr "slow down") |});
          trace := [] |} |}.

(** An output file that holds a JSON object instead of an array. *)
Definition object_sink_state : State :=
  {| this := constructor sample_config;
     world :=
       {| files := {[ "trelica_audit_logs.json" := Json (JObj []) ]};
          readDenied := ∅;
          writeDenied := ∅;
          clock := 1756117845123;
          localTZA := fun _ _ => 0;
          tokenEndpoint := fun _ _ => sample_token;
          logsEndpoint := fun _ r => sample_logs r;
          trace := [] |} |}.

(** An output file that holds one record. *)
Definition one_record_state : State :=
  {| this := constructor sample_config;
     world :=
       {| files := {[ "trelica_audit_logs.json" := Json (JArr [JStr "r0"]) ]};
          readDenied := ∅;
          writeDenied := ∅;
          clock := 1756117845123;
          localTZA := fun _ _ => 0;
          tokenEndpoint := fun _ _ => sample_token;
          logsEndpoint := fun _ r => sample_logs r;
          trace := [] |} |}.

(** A bookmark file that holds the JSON object [{}]. *)
Definition empty_bookmark_state : State :=
  {| this := constructor sample_config;
     world :=
       {| files := {[ "trelica_bookmark.json" := Json (JObj []) ]};
          readDenied := ∅;
          writeDenied := ∅;
          clock := 1756117845123;
          localTZA := fun _ _ => 0;
          tokenEndpoint := fun _ _ => sample_token;
          logsEndpoint := fun _ r => sample_logs r;
          trace := [] |} |}.

(** A bookmark file that cannot be written. *)
Definition locked_bookmark_state : State :=
  {| this := with_bookmark (Some (JStr "L1"))
               (with_accessToken (Some (JStr "tok")) (constructor sample_config));
     world :=
       {| files := ∅;
          readDenied := ∅;
          writeDenied := {[ "trelica_bookmark.json" ]};
          clock := 1756117845123;
          localTZA := fun _ _ => 0;
          tokenEndpoint := fun _ _ => sample_token;
          logsEndpoint := fun _ r => sample_logs r;
          trace := [] |} |}.

(** The log endpoint always has more: whatever was done before and
    whatever is asked, it answers 2xx with a page that has records and
    a continuation. *)
Definition never_ending_source (w : World) : Prop :=
  forall events req,
    exists status pg logs,
      200 <= status <= 299
      /\ logsEndpoint w events req = Responded status (JsonObject pg)
      /\ results pg = Some logs
      /\ logs <> []
      /\ truthy (next pg) = true.

(** Both files can take what a pass writes: they are two files, both
    may be written, and the output file can be read and holds an array
    if it holds JSON at all. *)
Definition stores_ready (s : State) : Prop :=
  bookmarkFile (this s) <> outputFile (this s)
  /\ (outputFile (this s) ∉ readDenied (world s))
  /\ (outputFile (this s) ∉ writeDenied (world s))
  /\ (bookmarkFile (this s) ∉ writeDenied (world s))
  /\ forall v, files (world s) !! (outputFile (this s)) = Some (Json v) ->
               exists items, v = JArr items.

(** A server that answers every request with one record and the
    continuation [L]. *)
Definition endless_state : State :=
  {| this := with_bookmark (Some (JStr "L"))
               (with_accessToken (Some (JStr "tok")) (constructor sample_config));
     world :=
       {| files := ∅;
          readDenied := ∅;
          writeDenied := ∅;
          clock := 1756117845123;
          localTZA := fun _ _ => 0;
          tokenEndpoint := fun _ _ => sample_token;
          logsEndpoint := fun _ _ =>
            Responded 200 (JsonObject (page (Some [JStr "r"]) (Some (JStr "L"))));
          trace := [] |} |}.

(** A request for logs: what [fetchLogs] sends on some instance. *)
Definition is_logs_fetch (e : Event) : Prop := exists p, e = Fetch (logsRequest p).

(** From [s] to [s'] the run carried on as a pass of the loop may: the
    two paths and the read permissions are as they were, the trace grew
    by events whose requests are requests for logs, and a sink that was
    ready still is and holds what it held, and maybe more at its end. *)
Definition carried_on (s s' : State) : Prop :=
  outputFile (this s') = outputFile (this s)
  /\ bookmarkFile (this s') = bookmarkFile (this s)
  /\ readDenied (world s') = readDenied (world s)
  /\ (exists added,
        trace (world s') = trace (world s) ++ added
        /\ Forall is_logs_fetch (filter is_fetch added))
  /\ (sink_ready s -> sink_ready s' /\ exists more, sink s' = sink s ++ more).

(** An output file that may be written but not read. *)
Definition unreadable_sink_state : State :=
  {| this := constructor sample_config;
     world :=
       {| files := {[ "trelica_audit_logs.json" := Json (JArr [JStr "r0"]) ]};
          readDenied := {[ "trelica_audit_logs.json" ]};
          writeDenied := ∅;
          clock := 1756117845123;
          localTZA := fun _ _ => 0;
          tokenEndpoint := fun _ _ => sample_token;
          logsEndpoint := fun _ r => sample_logs r;
          trace := [] |} |}.

(** An environment with the credentials and a lookback of 6 months. *)
Definition sample_env : gmap string string :=
  {[ "TRELICA_CLIENT_ID" := "abc123def456";
     "TRELICA_CLIENT_SECRET" := "supersecretkey789";
     "INITIAL_LOOKBACK_MONTHS" := "6" ]}.

(** * Properties

    In the words of the specification, [pullLogs] is [run],
    [loadBookmark] is [resolveStartingCursor], [fetchLogs] is
    [fetchPage], the bookmark file is the cursor store and its [nextUrl]
    the locator, and the output file is the record sink. *)

(** ** Calendar arithmetic of [Date] *)

Section Calendar.
Import JsDate.

(** [YearFromDay] is the year the day falls in. *)
Lemma YearFromDay_spec d :
  DayFromYear (YearFromDay d) <= d < DayFromYear (YearFromDay d + 1).
Proof.
  unfold YearFromDay. cbv zeta.
  destruct (Z.ltb_spec d (DayFromYear (1970 + 400 * d / 146097))) as [H1|H1].
  - replace (1970 + 400 * d / 146097 - 1 + 1) with (1970 + 400 * d / 146097) by lia.
    split; [|exact H1]. revert H1. unfold DayFromYear.
    Z.div_mod_to_equations; lia.
  - destruct (Z.leb_spec (DayFromYear (1970 + 400 * d / 146097 + 1)) d) as [H2|H2].
    + split; [exact H2|]. revert H1 H2. unfold DayFromYear.
      Z.div_mod_to_equations; lia.
    + split; assumption.
Qed.

(** Consecutive years are [DaysInYear] apart. *)
Lemma DayFromYear_succ y : DayFromYear (y + 1) = DayFromYear y + DaysInYear y.
Proof.
  unfold DaysInYear, isLeapYear, DayFromYear.
  destruct (Z.eqb_spec (y mod 4) 0), (Z.eqb_spec (y mod 100) 0), (Z.eqb_spec (y mod 400) 0);
    cbn [andb orb negb]; Z.div_mod_to_equations; lia.
Qed.

Lemma YearFromDay_unique d y :
  DayFromYear y <= d < DayFromYear (y + 1) -> YearFromDay d = y.
Proof.
  intros H. pose proof (YearFromDay_spec d) as H'.
  revert H H'. generalize (YearFromDay d). intros y'. unfold DayFromYear.
  Z.div_mod_to_equations; lia.
Qed.

Lemma leap_range y : leap y = 0 \/ leap y = 1.
Proof. unfold leap. destruct (isLeapYear y); auto. Qed.

Lemma DaysInYear_leap y : DaysInYear y = 365 + leap y.
Proof. unfold DaysInYear, leap. destruct (isLeapYear y); reflexivity. Qed.

Lemma Day_MakeDate day tod :
  0 <= tod < msPerDay ->
  Day (MakeDate day tod) = day /\ TimeWithinDay (MakeDate day tod) = tod.
Proof.
  intros H. unfold Day, TimeWithinDay, MakeDate, msPerDay in *.
  Z.div_mod_to_equations. lia.
Qed.

Lemma month_cases m : 0 <= m < 12 ->
  m = 0 \/ m = 1 \/ m = 2 \/ m = 3 \/ m = 4 \/ m = 5 \/ m = 6 \/ m = 7 \/ m = 8
  \/ m = 9 \/ m = 10 \/ m = 11.
Proof. lia. Qed.

(** The calendar fields of the time value built from a year, a month,
    a day of that month and a time of day are these. *)
Lemma fields_of_MakeDay y m d tod :
  0 <= m < 12 -> 1 <= d <= daysInMonth m (leap y) -> 0 <= tod < msPerDay ->
  let t := MakeDate (MakeDay y m d) tod in
  YearFromTime t = y /\ MonthFromTime t = m /\ DateFromTime t = d
  /\ TimeWithinDay t = tod.
Proof.
  intros Hm Hd Htod t. subst t.
  destruct (Day_MakeDate (MakeDay y m d) tod Htod) as [Hday Htime].
  assert (Hmake : MakeDay y m d = DayFromYear y + monthStart m (leap y) + d - 1).
  { unfold MakeDay. cbv zeta. rewrite Z.div_small, Z.mod_small by lia.
    rewrite Z.add_0_r. reflexivity. }
  assert (Hyear : YearFromTime (MakeDate (MakeDay y m d) tod) = y).
  { unfold YearFromTime. rewrite Hday, Hmake. apply YearFromDay_unique.
    rewrite DayFromYear_succ, DaysInYear_leap.
    destruct (leap_range y) as [Hl|Hl]; rewrite Hl in *;
      destruct (month_cases m Hm) as [->|[->|[->|[->|[->|[->|[->|[->|[->|[->|[->| ->]]]]]]]]]]];
      cbn in Hd |- *; lia. }
  assert (Hwithin : DayWithinYear (MakeDate (MakeDay y m d) tod)
                    = monthStart m (leap y) + d - 1).
  { unfold DayWithinYear. rewrite Hyear, Hday, Hmake. lia. }
  assert (Hleap : InLeapYear (MakeDate (MakeDay y m d) tod) = leap y).
  { unfold InLeapYear, leap. rewrite Hyear. reflexivity. }
  assert (Hmonth : MonthFromTime (MakeDate (MakeDay y m d) tod) = m).
  { unfold MonthFromTime. cbv zeta. rewrite Hwithin, Hleap.
    destruct (leap_range y) as [Hl|Hl]; rewrite Hl in *;
      destruct (month_cases m Hm) as [->|[->|[->|[->|[->|[->|[->|[->|[->|[->|[->| ->]]]]]]]]]]];
      cbn in Hd |- *;
      repeat (match goal with
              | |- context [?a <? ?b] => destruct (Z.ltb_spec a b); try lia
              end); reflexivity. }
  split; [exact Hyear|]. split; [exact Hmonth|]. split; [|exact Htime].
  unfold DateFromTime. rewrite Hmonth, Hwithin, Hleap. lia.
Qed.

Lemma DayWithinYear_range t : 0 <= DayWithinYear t < 365 + leap (YearFromTime t).
Proof.
  unfold DayWithinYear, YearFromTime.
  pose proof (YearFromDay_spec (Day t)) as H.
  rewrite DayFromYear_succ, DaysInYear_leap in H. lia.
Qed.

Lemma DateFromTime_pos t : 1 <= DateFromTime t.
Proof.
  pose proof (DayWithinYear_range t) as H.
  unfold DateFromTime, MonthFromTime. cbv zeta.
  change (InLeapYear t) with (leap (YearFromTime t)).
  destruct (leap_range (YearFromTime t)) as [Hl|Hl]; rewrite Hl in *;
    repeat (match goal with
            | |- context [?a <? ?b] => destruct (Z.ltb_spec a b)
            end); cbn; lia.
Qed.

(** X21: on a host with a constant offset from UTC, [monthsBefore] moves
    the local calendar month back by [n] and keeps the day of the month
    and the time of day, as long as the target month has that day. *)
Lemma monthsBefore_calendar (c t0 n : Z) :
  let L := t0 + c in
  let M := 12 * YearFromTime L + MonthFromTime L - n in
  DateFromTime L <= daysInMonth (M mod 12) (leap (M / 12)) ->
  exists L',
    monthsBefore (fun _ _ => c) (Some t0) n = TimeClip (L' - c)
    /\ 12 * YearFromTime L' + MonthFromTime L' = M
    /\ DateFromTime L' = DateFromTime L
    /\ TimeWithinDay L' = TimeWithinDay L.
Proof.
  intros L M Hd.
  set (m' := MonthFromTime L - n).
  assert (HMdiv : M / 12 = YearFromTime L + m' / 12)
    by (subst M m'; Z.div_mod_to_equations; lia).
  assert (HMmod : M mod 12 = m' mod 12)
    by (subst M m'; Z.div_mod_to_equations; lia).
  rewrite HMdiv, HMmod in Hd.
  assert (Hmake : MakeDay (YearFromTime L) m' (DateFromTime L)
                  = MakeDay (YearFromTime L + m' / 12) (m' mod 12) (DateFromTime L)).
  { unfold MakeDay. cbv zeta.
    rewrite (Z.div_small (m' mod 12)), (Z.mod_small (m' mod 12))
      by (Z.div_mod_to_equations; lia).
    rewrite Z.add_0_r. reflexivity. }
  assert (Htod : 0 <= TimeWithinDay L < msPerDay)
    by (unfold TimeWithinDay, msPerDay; Z.div_mod_to_equations; lia).
  destruct (fields_of_MakeDay (YearFromTime L + m' / 12) (m' mod 12) (DateFromTime L)
              (TimeWithinDay L)) as (Hy & Hm & Hdate & Htime);
    [Z.div_mod_to_equations; lia | pose proof (DateFromTime_pos L); lia | exact Htod |].
  exists (MakeDate (MakeDay (YearFromTime L) m' (DateFromTime L)) (TimeWithinDay L)).
  rewrite Hmake. split; [|split; [|split]].
  - unfold monthsBefore, setMonth, getMonth, LocalTime, UTC. cbv zeta.
    fold L. fold m'. rewrite Hmake. reflexivity.
  - rewrite Hy, Hm. subst M. fold m'. Z.div_mod_to_equations. lia.
  - exact Hdate.
  - exact Htime.
Qed.

Lemma DateFromTime_le_31 t : DateFromTime t <= 31.
Proof.
  pose proof (DayWithinYear_range t) as H.
  unfold DateFromTime, MonthFromTime. cbv zeta.
  change (InLeapYear t) with (leap (YearFromTime t)).
  destruct (leap_range (YearFromTime t)) as [Hl|Hl]; rewrite Hl in *;
    repeat (match goal with
            | |- context [?a <? ?b] => destruct (Z.ltb_spec a b)
            end); cbn; lia.
Qed.

(** X22: when the month [n] months back is too short for the day of the
    month, [monthsBefore] does not stop at its last day: the date rolls
    over into the month after it, by as many days as were missing, so
    the start lies less than [n] months back. *)
Lemma monthsBefore_rolls_over (c t0 n : Z) :
  let L := t0 + c in
  let M := 12 * YearFromTime L + MonthFromTime L - n in
  let short := daysInMonth (M mod 12) (leap (M / 12)) in
  short < DateFromTime L ->
  exists L',
    monthsBefore (fun _ _ => c) (Some t0) n = TimeClip (L' - c)
    /\ 12 * YearFromTime L' + MonthFromTime L' = M + 1
    /\ DateFromTime L' = DateFromTime L - short
    /\ TimeWithinDay L' = TimeWithinDay L.
Proof.
  intros L M short Hd. subst short.
  set (m' := MonthFromTime L - n).
  assert (HMdiv : M / 12 = YearFromTime L + m' / 12)
    by (subst M m'; Z.div_mod_to_equations; lia).
  assert (HMmod : M mod 12 = m' mod 12)
    by (subst M m'; Z.div_mod_to_equations; lia).
  rewrite HMdiv, HMmod in *.
  set (Y := YearFromTime L + m' / 12) in *.
  set (mm := m' mod 12) in *.
  pose proof (DateFromTime_le_31 L) as Hmax.
  assert (Hmm : 0 <= mm < 12) by (subst mm; Z.div_mod_to_equations; lia).
  assert (Hshort : mm = 1 \/ mm = 3 \/ mm = 5 \/ mm = 8 \/ mm = 10).
  { destruct (month_cases mm Hmm) as [H|[H|[H|[H|[H|[H|[H|[H|[H|[H|[H|H]]]]]]]]]]];
      rewrite H in Hd; cbn in Hd; lia. }
  assert (Hmake : MakeDay (YearFromTime L) m' (DateFromTime L)
                  = MakeDay Y (mm + 1) (DateFromTime L - daysInMonth mm (leap Y))).
  { unfold MakeDay. cbv zeta. fold Y. fold mm.
    rewrite (Z.div_small (mm + 1)), (Z.mod_small (mm + 1)) by lia.
    rewrite Z.add_0_r. fold (leap Y).
    destruct (leap_range Y) as [Hl|Hl]; rewrite Hl;
      destruct Hshort as [H|[H|[H|[H|H]]]]; rewrite H;
      match goal with
      | |- context [monthStart (?a + 1) _] =>
          let v := eval vm_compute in (a + 1) in change (a + 1) with v
      end; cbn; lia. }
  assert (Htod : 0 <= TimeWithinDay L < msPerDay)
    by (unfold TimeWithinDay, msPerDay; Z.div_mod_to_equations; lia).
  destruct (fields_of_MakeDay Y (mm + 1) (DateFromTime L - daysInMonth mm (leap Y))
              (TimeWithinDay L)) as (Hy & Hm & Hdate & Htime);
    [lia | | exact Htod |].
  { destruct (leap_range Y) as [Hl|Hl]; rewrite Hl in *;
      destruct Hshort as [H|[H|[H|[H|H]]]]; rewrite H in *;
      match goal with
      | |- context [daysInMonth (?a + 1) _] =>
          let v := eval vm_compute in (a + 1) in change (a + 1) with v
      end; cbn in Hd |- *; lia. }
  exists (MakeDate (MakeDay (YearFromTime L) m' (DateFromTime L)) (TimeWithinDay L)).
  rewrite Hmake. split; [|split; [|split]].
  - unfold monthsBefore, setMonth, getMonth, LocalTime, UTC. cbv zeta.
    fold L. fold m'. rewrite Hmake. reflexivity.
  - rewrite Hy, Hm. subst M Y mm m'. Z.div_mod_to_equations. lia.
  - exact Hdate.
  - exact Htime.
Qed.

(** 2024-05-31 less three months is 31 February, that is 2 March. *)
Example lookback_overflows_short_month :
  toISOString (monthsBefore (fun _ _ => 0) (Some 1717156800000) 3)
  = Some "2024-03-02T12:00:00.000Z".
Proof. reflexivity. Qed.

(** At UTC+2 the local date of 2025-02-28T23:00Z is 1 March, and one
    month less is 1 February, 01:00 local time. *)
Example lookback_is_in_local_time :
  toISOString (monthsBefore (fun _ _ => 7200000) (Some 1740783600000) 1)
  = Some "2025-01-31T23:00:00.000Z".
Proof. reflexivity. Qed.

Example toISOString_before_year_zero :
  toISOString (Some (-62198755200000)) = Some "-000001-01-01T00:00:00.000Z".
Proof. reflexivity. Qed.

Example toISOString_invalid_date :
  toISOString (TimeClip 8640000000000001) = None.
Proof. reflexivity. Qed.

End Calendar.

(** ** The methods, step by step *)

#[local] Arguments String.append : simpl never.
#[local] Arguments string_of_Z : simpl never.
#[local] Arguments string_of_nat : simpl never.
#[local] Arguments json_toString : simpl never.
#[local] Arguments js_toString : simpl never.
#[local] Arguments JsDate.toISOString : simpl never.
#[local] Arguments JsDate.TimeClip : simpl never.
#[local] Arguments JsDate.setMonth : simpl never.
#[local] Arguments JsDate.getMonth : simpl never.
#[local] Arguments Encoding.encodeURIComponent : simpl never.
#[local] Arguments Encoding.base64 : simpl never.
#[local] Arguments Z.leb : simpl never.
#[local] Arguments Z.add : simpl never.

(** Unfolds the monad so that a method applied to a state computes. *)
Ltac run :=
  repeat first
    [ progress unfold mbind, mret, M_bind, M_ret, throw, running, try_catch, eval,
        get_this, get_world, update_world, set_accessToken, set_bookmark,
        console_log, console_error, with_world
    | progress cbn beta iota zeta delta [fst snd this world] ].

(** Projects fields out of the worlds and instances the methods build. *)
Ltac world_simpl :=
  cbn [emit store advance files readDenied writeDenied clock localTZA
       tokenEndpoint logsEndpoint trace fst snd this world
       host clientId clientSecret bookmarkFile outputFile
       initialLookbackMonths accessToken bookmark
       with_bookmark with_accessToken] in *.

Ltac unfold_states :=
  unfold saved_bookmark, wrote_logs, counted, slept, got_page, after_read, with_world.

(** Finds the events a state added to the trace of an earlier one. *)
Ltac trace_added :=
  unfold_states; world_simpl; rewrite <- ?app_assoc; cbn [app]; reflexivity.

Lemma string_eqb_refl (a : string) : string_eqb a a = true.
Proof. unfold string_eqb. by apply bool_decide_eq_true. Qed.

Lemma string_eqb_ne (a b : string) : a <> b -> string_eqb a b = false.
Proof. intros. unfold string_eqb. by apply bool_decide_eq_false. Qed.

Lemma new_events_app (s s' : State) (added : list Event) :
  trace (world s') = trace (world s) ++ added -> new_events s s' = added.
Proof. intros H. unfold new_events. rewrite H. apply drop_app_length. Qed.

Lemma fs_writeFile_run (path : string) (value : JSON) (s : State) :
  fs_writeFile path value s
  = if decide (path ∈ writeDenied (world s)) then (Throw (denied path), s)
    else (Return tt,
          with_world (fun w => emit (WriteFile path (Json value))
                                 (store path (Json value) w)) s).
Proof.
  unfold fs_writeFile. run.
  destruct (decide (path ∈ writeDenied (world s))); reflexivity.
Qed.

Lemma readExistingLogs_run (s : State) :
  readExistingLogs s = (Return (existing_logs s), after_read s).
Proof.
  unfold readExistingLogs, fs_readFile, existing_logs, after_read. run. world_simpl.
  destruct (decide (outputFile (this s) ∈ readDenied (world s))); [reflexivity|].
  destruct (files (world s) !! (outputFile (this s))) as [[v|text]|]; reflexivity.
Qed.

(** [appendLogsToFile] on a non-empty list: it asks for the file, then
    throws what [concat] or the write throws, or writes and logs. *)
Lemma appendLogsToFile_run (logs : list JSON) (s : State) :
  logs <> [] ->
  appendLogsToFile logs s
  = match js_concat (existing_logs s) logs with
    | inl e => (Throw e, after_read s)
    | inr all =>
        if decide (outputFile (this s) ∈ writeDenied (world s))
        then (Throw (denied (outputFile (this s))), after_read s)
        else (Return tt, wrote_logs all (length logs) (after_read s))
    end.
Proof.
  intros Hne. unfold appendLogsToFile.
  destruct logs as [|r logs']; [done|]. cbn [length Nat.eqb]. run.
  rewrite readExistingLogs_run.
  destruct (js_concat (existing_logs s) (r :: logs')) as [e|all]; [reflexivity|].
  rewrite fs_writeFile_run. unfold after_read. run. world_simpl.
  destruct (decide (outputFile (this s) ∈ writeDenied (world s))); reflexivity.
Qed.

Lemma js_concat_appended (existing all : JSON) (logs : list JSON) :
  js_concat existing logs = inr all -> appended logs all.
Proof.
  destruct existing; cbn; intros [= <-]; [right | left]; eauto.
Qed.

(** [saveBookmark] throws before it changed anything, or writes the
    cursor, sets [this.bookmark] and logs. *)
Lemma saveBookmark_run (nextUrl : JsVal) (s : State) :
  saveBookmark nextUrl s
  = match timestamp (world s) with
    | None => (Throw (mkError RangeError "Invalid time value"), s)
    | Some iso =>
        if decide (bookmarkFile (this s) ∈ writeDenied (world s))
        then (Throw (denied (bookmarkFile (this s))), s)
        else (Return tt, saved_bookmark nextUrl iso s)
    end.
Proof.
  unfold saveBookmark, new_Date, toISOString. run. fold (timestamp (world s)).
  destruct (timestamp (world s)) as [iso|]; run; [|reflexivity].
  rewrite fs_writeFile_run.
  destruct (decide (bookmarkFile (this s) ∈ writeDenied (world s))); reflexivity.
Qed.

Lemma ok_spec {A} (status : Z) (payload : Body A) :
  ok (status, payload) = true <-> 200 <= status <= 299.
Proof. unfold ok. cbn [fst]. rewrite andb_true_iff, !Z.leb_le. tauto. Qed.

Lemma fetchLogs_served (s : State) (status : Z) (pg : PageFields) :
  truthy (accessToken (this s)) = true ->
  200 <= status <= 299 ->
  logsEndpoint (world s) (trace (world s)) (logsRequest (this s))
  = Responded status (JsonObject pg) ->
  fetchLogs s = (Return (Some pg), with_world (emit (Fetch (logsRequest (this s)))) s).
Proof.
  intros Htoken Hok Hresp. unfold fetchLogs, fetch. run.
  rewrite Htoken. cbn [negb]. run. rewrite Hresp. run.
  apply (ok_spec status (JsonObject pg)) in Hok. rewrite Hok. reflexivity.
Qed.

(** Whenever [fetchLogs] returns, it held a token and got a 2xx answer. *)
Lemma fetchLogs_returns (s s' : State) (r : option PageFields) :
  fetchLogs s = (Return r, s') ->
  truthy (accessToken (this s)) = true
  /\ exists status,
       200 <= status <= 299
       /\ logsEndpoint (world s) (trace (world s)) (logsRequest (this s))
          = Responded status (match r with Some pg => JsonObject pg | None => JsonNull end).
Proof.
  unfold fetchLogs, fetch. run.
  destruct (truthy (accessToken (this s))) eqn:Htoken; cbn [negb]; run; [|discriminate].
  destruct (logsEndpoint (world s) (trace (world s)) (logsRequest (this s)))
    as [e|status payload] eqn:Hresp; run; [discriminate|].
  destruct (ok (status, payload)) eqn:Hok; cbn [negb]; run.
  - apply ok_spec in Hok. unfold json. cbn [snd].
    destruct payload as [why| |pg]; run; intros [= <- <-]; eauto 10.
  - unfold json, prop. cbn [snd].
    destruct payload as [why| |pg]; run; try discriminate.
    destruct (truthy (title pg)); run; discriminate.
Qed.

Lemma fetch_page (s : State) (pg : PageFields) :
  page_served s pg ->
  fetchLogs (with_world (emit (ConsoleLog "Fetching logs...")) s)
  = (Return (Some pg),
     with_world (fun w => emit (Fetch (logsRequest (this s)))
                            (emit (ConsoleLog "Fetching logs...") w)) s).
Proof.
  intros [Htoken (status & Hok & Hresp)].
  erewrite fetchLogs_served; eauto.
Qed.

(** A pass over a page with records, in terms of the two writes it makes. *)
Lemma iteration_records (total : nat) (s : State) (pg : PageFields) (logs : list JSON) :
  page_served s pg -> results pg = Some logs -> logs <> [] ->
  iteration total s
  = match appendLogsToFile logs (got_page (length logs) s) with
    | (Return _, s4) =>
        let total' := (total + length logs)%nat in
        let s5 := counted (length logs) total' s4 in
        if truthy (next pg) then
          match saveBookmark (next pg) s5 with
          | (Return _, s6) => (Return (true, total'), s6)
          | (Throw e, s6) => (Throw e, s6)
          | (Running, s6) => (Running, s6)
          end
        else
          (Return (false, total'),
           with_world
             (emit (ConsoleLog "No next URL provided - reached end of available logs")) s5)
    | (Throw e, s4) => (Throw e, s4)
    | (Running, s4) => (Running, s4)
    end.
Proof.
  intros Hpage Hres Hne. unfold iteration. run.
  pose proof (fetch_page s pg Hpage) as Hfetch. unfold with_world in Hfetch.
  rewrite Hfetch. run. unfold prop at 1. run. rewrite Hres.
  destruct logs as [|r logs']; [done|].
  unfold default. cbn [from_option id length Nat.ltb Nat.leb]. unfold got_page. run.
  destruct (appendLogsToFile _ _) as [[[]|e|] s4]; try reflexivity.
  unfold counted. run. unfold prop. run.
  destruct (truthy (next pg)); [|reflexivity].
  destruct (saveBookmark _ _) as [[[]|e|] s6]; reflexivity.
Qed.

(** The same pass with the two writes spelled out. *)
Lemma iteration_records_run (total : nat) (s : State) (pg : PageFields) (logs : list JSON) :
  page_served s pg -> results pg = Some logs -> logs <> [] ->
  let n := length logs in
  let s1 := after_read (got_page n s) in
  iteration total s
  = match js_concat (existing_logs s) logs with
    | inl e => (Throw e, s1)
    | inr all =>
        if decide (outputFile (this s) ∈ writeDenied (world s))
        then (Throw (denied (outputFile (this s))), s1)
        else
          let s5 := counted n (total + n) (wrote_logs all n s1) in
          if truthy (next pg) then
            match timestamp (world s) with
            | None => (Throw (mkError RangeError "Invalid time value"), s5)
            | Some iso =>
                if decide (bookmarkFile (this s) ∈ writeDenied (world s))
                then (Throw (denied (bookmarkFile (this s))), s5)
                else (Return (true, (total + n)%nat), saved_bookmark (next pg) iso s5)
            end
          else
            (Return (false, (total + n)%nat),
             with_world
               (emit (ConsoleLog "No next URL provided - reached end of available logs"))
               s5)
    end.
Proof.
  intros Hpage Hres Hne n s1. subst n s1.
  rewrite (iteration_records total s pg logs Hpage Hres Hne).
  rewrite (appendLogsToFile_run logs _ Hne).
  change (existing_logs (got_page (length logs) s)) with (existing_logs s).
  destruct (js_concat (existing_logs s) logs) as [e|all]; [reflexivity|].
  change (outputFile (this (got_page (length logs) s))) with (outputFile (this s)).
  change (writeDenied (world (got_page (length logs) s))) with (writeDenied (world s)).
  destruct (decide (outputFile (this s) ∈ writeDenied (world s))); [reflexivity|].
  cbn zeta. destruct (truthy (next pg)); [|reflexivity].
  rewrite saveBookmark_run.
  change (timestamp (world (counted _ _ _))) with (timestamp (world s)).
  destruct (timestamp (world s)); [|reflexivity].
  change (bookmarkFile (this (counted _ _ _))) with (bookmarkFile (this s)).
  change (writeDenied (world (counted _ _ _))) with (writeDenied (world s)).
  destruct (decide (bookmarkFile (this s) ∈ writeDenied (world s))); reflexivity.
Qed.

(** A pass over a page without records. *)
Lemma iteration_no_records (total : nat) (s : State) (pg : PageFields) :
  page_served s pg -> default [] (results pg) = [] ->
  iteration total s
  = let s3 := with_world (emit (ConsoleLog "No new logs found - caught up to real-time"))
                (got_page 0 s) in
    match timestamp (world s) with
    | None => (Throw (mkError RangeError "Invalid time value"), s3)
    | Some iso =>
        if decide (bookmarkFile (this s) ∈ writeDenied (world s))
        then (Throw (denied (bookmarkFile (this s))), s3)
        else
          let data := Json (cursor_record (bookmark (this s)) iso (Some (JStr caughtUpNote))) in
          (Return (false, total),
           with_world
             (fun w => emit (ConsoleLog ("Saved current position for next run: "
                                         +:+ js_toString (bookmark (this s))))
                         (emit (WriteFile (bookmarkFile (this s)) data)
                            (store (bookmarkFile (this s)) data w))) s3)
    end.
Proof.
  intros Hpage Hres. unfold iteration. run.
  pose proof (fetch_page s pg Hpage) as Hfetch. unfold with_world in Hfetch.
  rewrite Hfetch. run. unfold prop at 1. run. rewrite Hres.
  cbn [length Nat.ltb Nat.leb]. unfold got_page, new_Date, toISOString. run.
  world_simpl. fold (timestamp (world s)).
  destruct (timestamp (world s)) as [iso|]; run; [|reflexivity].
  rewrite fs_writeFile_run. world_simpl.
  destruct (decide (bookmarkFile (this s) ∈ writeDenied (world s))); reflexivity.
Qed.

(** A pass that returned was served a page. *)
Lemma iteration_returns (total : nat) (s s' : State) (r : bool * nat) :
  iteration total s = (Return r, s') -> exists pg, page_served s pg.
Proof.
  unfold iteration. run.
  destruct (fetchLogs _) as [[resp|e|] s2] eqn:Hfetch; try discriminate.
  apply fetchLogs_returns in Hfetch as (Htoken & status & Hok & Hresp).
  destruct resp as [pg|]; [|unfold prop; run; discriminate].
  intros _. exists pg. split; [exact Htoken|]. exists status. split; [exact Hok|].
  exact Hresp.
Qed.

Lemma while_hasMore_step (fuel total : nat) (s : State) :
  while_hasMore (S fuel) true total s
  = match iteration total s with
    | (Return (hasMore, total'), s1) => while_hasMore fuel hasMore total' (slept s1)
    | (Throw e, s1) => (Throw e, s1)
    | (Running, s1) => (Running, s1)
    end.
Proof.
  cbn [while_hasMore]. run.
  destruct (iteration total s) as [[[hasMore total']|e|] s1]; reflexivity.
Qed.

Lemma while_hasMore_done (fuel total : nat) (s : State) :
  while_hasMore fuel false total s = (Return total, s).
Proof. destruct fuel; reflexivity. Qed.

(** ** fetchLogs before authenticate *)

(** C8: while [this.accessToken] holds no token, [fetchLogs] throws
    "Not authenticated. Call authenticate() first." and leaves the state,
    and so the trace of requests, as it was. *)
Theorem fetchLogs_requires_token (s : State) :
  truthy (accessToken (this s)) = false ->
  fetchLogs s
  = (Throw (mkError Error "Not authenticated. Call authenticate() first."), s).
Proof.
  intros Hfalsy. unfold fetchLogs. run. rewrite Hfalsy. reflexivity.
Qed.

(** ** Order of the two writes of a pass *)

Lemma preceded_nil (P Q : Event -> Prop) : preceded P Q [].
Proof. intros [|x before] e after H; discriminate. Qed.

Lemma preceded_skip (P Q : Event -> Prop) (x : Event) (l : list Event) :
  ~ P x -> preceded P Q l -> preceded P Q (x :: l).
Proof.
  intros Hx Hl [|y before] e after H HP.
  - injection H as <- _. contradiction.
  - injection H as <- H. destruct (Hl before e after H HP) as (r & Hin & HQ).
    exists r. split; [by apply elem_of_cons; right | done].
Qed.

Lemma preceded_after (P Q : Event -> Prop) (x : Event) (l : list Event) :
  ~ P x -> Q x -> preceded P Q (x :: l).
Proof.
  intros Hx HQ [|y before] e after H HP.
  - injection H as <- _. contradiction.
  - injection H as <- _. exists x. split; [by apply elem_of_cons; left | done].
Qed.

Lemma records_write_not_cursor (p : Puller) (logs : list JSON) (path : string) (all : JSON) :
  appended logs all -> ~ persists_cursor p (WriteFile path (Json all)).
Proof.
  intros [[old ->]|[text ->]] (nextUrl & iso & note & H);
    unfold cursor_record, object_literal in H; discriminate.
Qed.

Ltac not_cursor :=
  first [ by eapply records_write_not_cursor
        | let H := fresh in intros (? & ? & ? & H); discriminate H ].

(** Walks down a list of events: console lines, requests and reads are
    no cursor writes, and once the records write is met nothing more is
    asked of the events after it. *)
Ltac in_order all :=
  repeat first
    [ apply preceded_nil
    | apply preceded_after; [not_cursor | exists all; split; [assumption | reflexivity]]
    | apply preceded_skip; [not_cursor|] ].

(** C1: in a pass of the loop that fetched a page with at least one
    record, every event that writes a cursor to the bookmark file comes
    after the event that wrote the output file with the records of that
    page at its end; a pass in which the records were not written writes
    no cursor. *)
Theorem records_persisted_before_cursor
    (total : nat) (s : State) (pg : PageFields) (logs : list JSON) :
  page_served s pg -> results pg = Some logs -> logs <> [] ->
  exists added,
    trace (world (snd (iteration total s))) = trace (world s) ++ added
    /\ preceded (persists_cursor (this s)) (persists_records (this s) logs) added.
Proof.
  intros Hpage Hres Hne.
  rewrite (iteration_records_run total s pg logs Hpage Hres Hne). cbn zeta.
  destruct (js_concat (existing_logs s) logs) as [e|all] eqn:Hconcat.
  { (* concat threw: nothing was written *)
    eexists. split; [trace_added | in_order JNull]. }
  apply js_concat_appended in Hconcat.
  destruct (decide (outputFile (this s) ∈ writeDenied (world s))).
  { (* the output file could not be written *)
    eexists. split; [trace_added | in_order all]. }
  destruct (truthy (next pg)).
  - destruct (timestamp (world s)) as [iso|];
      [destruct (decide (bookmarkFile (this s) ∈ writeDenied (world s)))|];
      (eexists; split; [trace_added | in_order all]).
  - eexists. split; [trace_added | in_order all].
Qed.

(** ** When the cursor is overwritten *)

Lemma cursor_overwritten_In (s s' : State) (data : FileData) :
  In (WriteFile (bookmarkFile (this s)) data) (new_events s s') ->
  cursor_overwritten s s' = true.
Proof.
  intros Hin. unfold cursor_overwritten. apply existsb_exists.
  eexists. split; [exact Hin|]. apply string_eqb_refl.
Qed.

Ltac find_event := cbn [In]; repeat first [left; reflexivity | right].

(** A pass that returned, on a page with records and a continuation. *)
Lemma iteration_advances (total : nat) (s s' : State) (pg : PageFields)
    (logs : list JSON) (r : bool * nat) :
  page_served s pg -> results pg = Some logs -> logs <> [] ->
  truthy (next pg) = true ->
  iteration total s = (Return r, s') ->
  exists iso,
    r = (true, (total + length logs)%nat)
    /\ bookmark (this s') = next pg
    /\ files (world s') !! (bookmarkFile (this s))
       = Some (Json (cursor_record (next pg) iso undefined))
    /\ In (WriteFile (bookmarkFile (this s)) (Json (cursor_record (next pg) iso undefined)))
         (new_events s s').
Proof.
  intros Hpage Hres Hne Hnext.
  rewrite (iteration_records_run total s pg logs Hpage Hres Hne). cbn zeta.
  destruct (js_concat (existing_logs s) logs) as [e|all]; [discriminate|].
  destruct (decide (outputFile (this s) ∈ writeDenied (world s))); [discriminate|].
  rewrite Hnext. destruct (timestamp (world s)) as [iso|]; [|discriminate].
  destruct (decide (bookmarkFile (this s) ∈ writeDenied (world s))); [discriminate|].
  intros [= <- <-]. exists iso. split; [reflexivity|]. split; [reflexivity|].
  split; [unfold saved_bookmark; world_simpl; apply lookup_insert_eq|].
  erewrite new_events_app; [|trace_added]. find_event.
Qed.

(** A pass that returned, on a page without records. *)
Lemma iteration_caught_up (total : nat) (s s' : State) (pg : PageFields) (r : bool * nat) :
  page_served s pg -> default [] (results pg) = [] ->
  iteration total s = (Return r, s') ->
  exists iso,
    let data := Json (cursor_record (bookmark (this s)) iso (Some (JStr caughtUpNote))) in
    timestamp (world s) = Some iso
    /\ r = (false, total)
    /\ this s' = this s
    /\ files (world s') = <[bookmarkFile (this s) := data]> (files (world s))
    /\ new_events s s'
       = [ConsoleLog "Fetching logs...";
          Fetch (logsRequest (this s));
          ConsoleLog "Fetched 0 logs";
          ConsoleLog "No new logs found - caught up to real-time";
          WriteFile (bookmarkFile (this s)) data;
          ConsoleLog ("Saved current position for next run: "
                      +:+ js_toString (bookmark (this s)))].
Proof.
  intros Hpage Hres. rewrite (iteration_no_records total s pg Hpage Hres). cbn zeta.
  destruct (timestamp (world s)) as [iso|]; [|discriminate].
  destruct (decide _); [discriminate|]. intros [= <- <-]. exists iso. cbn zeta.
  repeat split. apply new_events_app. trace_added.
Qed.

(** A pass that returned, on a page with records and no continuation. *)
Lemma iteration_dead_end (total : nat) (s s' : State) (pg : PageFields)
    (logs : list JSON) (r : bool * nat) :
  page_served s pg -> results pg = Some logs -> logs <> [] ->
  truthy (next pg) = false ->
  iteration total s = (Return r, s') ->
  exists all,
    let n := length logs in
    appended logs all
    /\ r = (false, (total + n)%nat)
    /\ this s' = this s
    /\ files (world s') = <[outputFile (this s) := Json all]> (files (world s))
    /\ new_events s s'
       = [ConsoleLog "Fetching logs...";
          Fetch (logsRequest (this s));
          ConsoleLog ("Fetched " +:+ string_of_nat n +:+ " logs");
          ReadFile (outputFile (this s));
          WriteFile (outputFile (this s)) (Json all);
          ConsoleLog ("Appended " +:+ string_of_nat n +:+ " logs to "
                      +:+ outputFile (this s));
          ConsoleLog ("Pulled " +:+ string_of_nat n +:+ " logs (total: "
                      +:+ string_of_nat (total + n) +:+ ")");
          ConsoleLog "No next URL provided - reached end of available logs"].
Proof.
  intros Hpage Hres Hne Hnext.
  rewrite (iteration_records_run total s pg logs Hpage Hres Hne). cbn zeta.
  destruct (js_concat (existing_logs s) logs) as [e|all] eqn:Hconcat; [discriminate|].
  apply js_concat_appended in Hconcat.
  destruct (decide (outputFile (this s) ∈ writeDenied (world s))); [discriminate|].
  rewrite Hnext. intros [= <- <-]. exists all. cbn zeta.
  repeat split; [done|]. apply new_events_app. trace_added.
Qed.

(** C2, as the code has it: a pass that returned has overwritten the
    bookmark file when its page carried records and a continuation
    locator (with that locator, which is also the new [this.bookmark])
    and when it carried no records (with the current locator and the
    caught-up note); on a page with records and no continuation locator
    it has written no cursor, [this.bookmark] is what it was, and so is
    the bookmark file when it is not also the output file. *)
Theorem cursor_overwritten_unless_dead_end
    (total : nat) (s s' : State) (pg : PageFields) (r : bool * nat) :
  page_served s pg ->
  iteration total s = (Return r, s') ->
  let logs := default [] (results pg) in
  let path := bookmarkFile (this s) in
  (logs <> [] -> truthy (next pg) = true ->
   bookmark (this s') = next pg
   /\ cursor_overwritten s s' = true
   /\ exists iso, files (world s') !! path
                  = Some (Json (cursor_record (next pg) iso undefined)))
  /\ (logs = [] ->
      bookmark (this s') = bookmark (this s)
      /\ cursor_overwritten s s' = true
      /\ exists iso, files (world s') !! path
                     = Some (Json (cursor_record (bookmark (this s)) iso
                                     (Some (JStr caughtUpNote)))))
  /\ (logs <> [] -> truthy (next pg) = false ->
      bookmark (this s') = bookmark (this s)
      /\ Forall (fun e => ~ persists_cursor (this s) e) (new_events s s')
      /\ (path <> outputFile (this s) ->
          cursor_overwritten s s' = false
          /\ files (world s') !! path = files (world s) !! path)).
Proof.
  intros Hpage Hrun logs path. subst path. split; [|split].
  - intros Hne Hnext. destruct (results pg) as [l|] eqn:Hres; [|done].
    destruct (iteration_advances total s s' pg l r Hpage Hres Hne Hnext Hrun)
      as (iso & _ & Hthis & Hfile & Hin).
    split; [done|]. split; [by eapply cursor_overwritten_In | by exists iso].
  - intros Hnil.
    destruct (iteration_caught_up total s s' pg r Hpage Hnil Hrun)
      as (iso & _ & _ & Hthis & Hfiles & Hevents).
    split; [by rewrite Hthis|]. split.
    + eapply cursor_overwritten_In. rewrite Hevents. find_event.
    + exists iso. rewrite Hfiles. apply lookup_insert_eq.
  - intros Hne Hnext. destruct (results pg) as [l|] eqn:Hres; [|done].
    destruct (iteration_dead_end total s s' pg l r Hpage Hres Hne Hnext Hrun)
      as (all & Hall & _ & Hthis & Hfiles & Hevents).
    split; [by rewrite Hthis|]. split.
    + rewrite Hevents. repeat (apply Forall_cons; split; [not_cursor|]).
      constructor.
    + intros Hpaths. split.
      * unfold cursor_overwritten. rewrite Hevents. cbn [existsb writes_to].
        rewrite string_eqb_ne by congruence. reflexivity.
      * rewrite Hfiles. apply lookup_insert_ne. congruence.
Qed.

(** ** The end of the loop *)

Lemma cursor_record_nextUrl (nextUrl : JsVal) (iso : string) (note : JsVal) :
  get_prop (cursor_record nextUrl iso note) "nextUrl" = Some nextUrl.
Proof. destruct nextUrl, note; reflexivity. Qed.

Lemma cursor_record_note (nextUrl : JsVal) (iso : string) (note : JsVal) :
  get_prop (cursor_record nextUrl iso note) "note" = Some note.
Proof. destruct nextUrl, note; reflexivity. Qed.

(** C3: when the page fetched in a pass has no records, the loop ends
    with that pass for any fuel left, having sent one request, and
    [this.bookmark] is still the locator just fetched.  When the
    bookmark file can be written and the clock holds a valid time, the
    loop returns the total it had, and the bookmark file then holds a
    cursor whose [nextUrl] is that locator, whose [note] is the
    caught-up note and whose [lastUpdated] is the current time. *)
Theorem caught_up_persists_current_locator
    (fuel total : nat) (s : State) (pg : PageFields) :
  page_served s pg ->
  default [] (results pg) = [] ->
  exists out s',
    while_hasMore (S fuel) true total s = (out, s')
    /\ out <> Running
    /\ bookmark (this s') = bookmark (this s)
    /\ filter is_fetch (new_events s s') = [Fetch (logsRequest (this s))]
    /\ forall iso,
         timestamp (world s) = Some iso ->
         bookmarkFile (this s) ∉ writeDenied (world s) ->
         let cursor := cursor_record (bookmark (this s)) iso (Some (JStr caughtUpNote)) in
         out = Return total
         /\ files (world s') !! (bookmarkFile (this s)) = Some (Json cursor)
         /\ get_prop cursor "nextUrl" = Some (bookmark (this s))
         /\ get_prop cursor "note" = Some (Some (JStr caughtUpNote)).
Proof.
  intros Hpage Hres. rewrite while_hasMore_step.
  rewrite (iteration_no_records total s pg Hpage Hres). cbn zeta.
  destruct (timestamp (world s)) as [now|];
    [destruct (decide (bookmarkFile (this s) ∈ writeDenied (world s)));
     [|rewrite while_hasMore_done]|];
    (eexists; eexists; split; [reflexivity|]; split; [discriminate|];
     split; [reflexivity|];
     split; [erewrite new_events_app; [|trace_added]; reflexivity|];
     intros iso Hiso Hw; try done).
  injection Hiso as <-. cbn zeta. split; [reflexivity|].
  split; [unfold_states; world_simpl; apply lookup_insert_eq|].
  split; [apply cursor_record_nextUrl | apply cursor_record_note].
Qed.

(** C9: a response whose [results] field is absent or [null] is handled
    as a page without records: the pass logs "Fetched 0 logs" and the
    caught-up message, writes the current locator with the caught-up
    note to the bookmark file, and the loop returns; nothing is thrown. *)
Theorem missing_results_is_caught_up
    (fuel total : nat) (s : State) (pg : PageFields) (iso : string) :
  page_served s pg ->
  results pg = None ->
  timestamp (world s) = Some iso ->
  bookmarkFile (this s) ∉ writeDenied (world s) ->
  let data := Json (cursor_record (bookmark (this s)) iso (Some (JStr caughtUpNote))) in
  exists s',
    while_hasMore (S fuel) true total s = (Return total, s')
    /\ this s' = this s
    /\ files (world s') = <[bookmarkFile (this s) := data]> (files (world s))
    /\ new_events s s'
       = [ConsoleLog "Fetching logs...";
          Fetch (logsRequest (this s));
          ConsoleLog "Fetched 0 logs";
          ConsoleLog "No new logs found - caught up to real-time";
          WriteFile (bookmarkFile (this s)) data;
          ConsoleLog ("Saved current position for next run: "
                      +:+ js_toString (bookmark (this s)));
          Timeout 100].
Proof.
  intros Hpage Hres Hiso Hw data. rewrite while_hasMore_step.
  assert (Hnil : default [] (results pg) = []) by (rewrite Hres; reflexivity).
  rewrite (iteration_no_records total s pg Hpage Hnil). cbn zeta.
  rewrite Hiso, decide_False by done. rewrite while_hasMore_done.
  eexists. split; [reflexivity|]. split; [reflexivity|]. split; [reflexivity|].
  apply new_events_app. trace_added.
Qed.

(** C4: when the page fetched in a pass has records and no continuation
    locator, the loop ends with that pass for any fuel left: it returns
    the total with the records of the page added, or rethrows what the
    append threw; the request of that pass is the only one sent and
    [this.bookmark] is what it was. *)
Theorem dead_end_stops_the_loop
    (fuel total : nat) (s : State) (pg : PageFields) (logs : list JSON) :
  page_served s pg -> results pg = Some logs -> logs <> [] ->
  truthy (next pg) = false ->
  exists out s',
    while_hasMore (S fuel) true total s = (out, s')
    /\ match fst (appendLogsToFile logs (got_page (length logs) s)) with
       | Return _ => out = Return (total + length logs)%nat
       | Throw e => out = Throw e
       | Running => False
       end
    /\ this s' = this s
    /\ filter is_fetch (new_events s s') = [Fetch (logsRequest (this s))].
Proof.
  intros Hpage Hres Hne Hnext. rewrite while_hasMore_step.
  rewrite (iteration_records_run total s pg logs Hpage Hres Hne).
  rewrite (appendLogsToFile_run logs _ Hne). cbn zeta.
  change (existing_logs (got_page (length logs) s)) with (existing_logs s).
  change (outputFile (this (got_page (length logs) s))) with (outputFile (this s)).
  change (writeDenied (world (got_page (length logs) s))) with (writeDenied (world s)).
  destruct (js_concat (existing_logs s) logs) as [e|all];
    [|destruct (decide (outputFile (this s) ∈ writeDenied (world s)));
      [|rewrite Hnext, while_hasMore_done]];
    (eexists; eexists; split; [reflexivity|]; split; [reflexivity|];
     split; [reflexivity|]; erewrite new_events_app; [|trace_added]; reflexivity).
Qed.

(** ** appendLogsToFile on an unparseable output file *)

(** C10: when the output file exists and is not JSON, appending a
    non-empty list of records returns normally, having replaced the
    content of the file by the new records alone. *)
Theorem unparseable_output_is_overwritten (logs : list JSON) (s : State) (text : string) :
  logs <> [] ->
  files (world s) !! (outputFile (this s)) = Some (Garbled text) ->
  outputFile (this s) ∉ readDenied (world s) ->
  outputFile (this s) ∉ writeDenied (world s) ->
  exists s',
    appendLogsToFile logs s = (Return tt, s')
    /\ files (world s') = <[outputFile (this s) := Json (JArr logs)]> (files (world s))
    /\ new_events s s'
       = [ReadFile (outputFile (this s));
          WriteFile (outputFile (this s)) (Json (JArr logs));
          ConsoleLog ("Appended " +:+ string_of_nat (length logs) +:+ " logs to "
                      +:+ outputFile (this s))].
Proof.
  intros Hne Hfile Hr Hw. rewrite (appendLogsToFile_run logs s Hne).
  unfold existing_logs. rewrite decide_False, Hfile by done.
  cbn [js_concat app]. rewrite decide_False by done.
  eexists. split; [reflexivity|]. split; [reflexivity|].
  apply new_events_app. trace_added.
Qed.

(** ** A rejected authentication *)

Lemma fetch_token_run (s : State) :
  fetch tokenEndpoint (tokenRequest (this s)) s
  = match tokenEndpoint (world s) (trace (world s)) (tokenRequest (this s)) with
    | Unreachable e => (Throw e, with_world (emit (Fetch (tokenRequest (this s)))) s)
    | Responded status payload =>
        (Return (status, payload), with_world (emit (Fetch (tokenRequest (this s)))) s)
    end.
Proof.
  unfold fetch. run.
  destruct (tokenEndpoint (world s) (trace (world s)) (tokenRequest (this s))); reflexivity.
Qed.



(** ** The starting cursor *)

Lemma startFromLookback_run (s : State) :
  startFromLookback s
  = match JsDate.toISOString
            (monthsBefore (localTZA (world s)) (JsDate.TimeClip (clock (world s)))
               (initialLookbackMonths (this s))) with
    | Some iso =>
        (Return tt,
         {| this := with_bookmark (Some (JStr (seedLocator (host (this s)) iso))) (this s);
            world := emit (ConsoleLog ("No valid bookmark found, starting from "
                                       +:+ string_of_Z (initialLookbackMonths (this s))
                                       +:+ " months ago: " +:+ iso)) (world s) |})
    | None => (Throw (mkError RangeError "Invalid time value"), s)
    end.
Proof.
  unfold startFromLookback, new_Date, toISOString, monthsBefore. run.
  destruct (JsDate.TimeClip (clock (world s))) as [t|];
    destruct (JsDate.toISOString _); reflexivity.
Qed.

(** [loadBookmark] takes [nextUrl] from a bookmark file that parses to
    something other than [null], and starts from the lookback otherwise. *)
Lemma loadBookmark_cases (s : State) :
  let s1 := with_world (emit (ReadFile (bookmarkFile (this s)))) s in
  (exists v nextUrl,
     files (world s) !! (bookmarkFile (this s)) = Some (Json v)
     /\ (bookmarkFile (this s) ∉ readDenied (world s))
     /\ get_prop v "nextUrl" = Some nextUrl
     /\ loadBookmark s
        = (Return tt,
           {| this := with_bookmark nextUrl (this s);
              world := emit (ConsoleLog ("Loaded bookmark: " +:+ js_toString nextUrl))
                         (world s1) |}))
  \/ (no_usable_bookmark s /\ loadBookmark s = startFromLookback s1).
Proof.
  unfold loadBookmark, fs_readFile, no_usable_bookmark. run. world_simpl.
  destruct (decide (bookmarkFile (this s) ∈ readDenied (world s))) as [Hd|Hd].
  { right. split; [by left | reflexivity]. }
  destruct (files (world s) !! (bookmarkFile (this s))) as [[v|text]|] eqn:Hfile;
    unfold JSON_parse, member; run.
  - destruct (get_prop v "nextUrl") as [nextUrl|] eqn:Hprop; run.
    + left. eauto 10.
    + right. destruct v; try discriminate. split; [by do 3 right | reflexivity].
  - right. split; [right; right; left; by eexists | reflexivity].
  - right. split; [by right; left | reflexivity].
Qed.

(** C5, as the code has it: with a lookback of [n] months configured,
    [n] not 0, and a bookmark file that is missing, unreadable or not
    JSON, [loadBookmark] sets [this.bookmark] to the log-listing
    endpoint with [limit=1000] and [since] the ISO-8601 text of now
    minus [n] months, provided that date is one a [Date] can hold. *)
Theorem seed_locator_nonzero_lookback
    (config : Config) (token : JsVal) (w : World) (n : Z) (iso : string) :
  let s := {| this := with_accessToken token (constructor config); world := w |} in
  configured_lookback config n ->
  n <> 0 ->
  no_usable_bookmark s ->
  JsDate.toISOString (monthsBefore (localTZA w) (JsDate.TimeClip (clock w)) n) = Some iso ->
  exists s',
    loadBookmark s = (Return tt, s')
    /\ bookmark (this s') = Some (JStr (seedLocator (host (this s)) iso))
    /\ seedLocator (host (this s)) iso
       = "https://" +:+ or_string (cfg_host config) "app.trelica.com"
         +:+ "/api/audit/v1/logs?limit=1000&since=" +:+ Encoding.encodeURIComponent iso
    /\ files (world s') = files w.
Proof.
  intros s Hconfig Hn Hnone Hiso.
  assert (Hmonths : initialLookbackMonths (this s) = n).
  { cbn. destruct Hconfig as [-> | [-> ->]]; cbn; [|reflexivity].
    destruct (Z.eqb_spec n 0); [contradiction | reflexivity]. }
  destruct (loadBookmark_cases s)
    as [(v & nextUrl & Hfile & Hread & Hprop & _)|(_ & ->)].
  { destruct Hnone as [Hd|[Hf|[[text Hf]|Hf]]]; [done | congruence | congruence |].
    rewrite Hf in Hfile. injection Hfile as <-. discriminate. }
  rewrite startFromLookback_run. world_simpl. cbn [with_world this world].
  rewrite Hmonths. subst s. world_simpl. rewrite Hiso.
  eexists. repeat split.
Qed.

(** ** The total of a run *)

Lemma same_store_sink (s s' : State) :
  same_store s s' -> sink s' = sink s /\ (sink_ready s -> sink_ready s').
Proof.
  intros (Hf & Hr & Ho & Hb & _). unfold sink, sink_ready.
  rewrite Hf, Hr, Ho, Hb. auto.
Qed.

(** [authenticate], when it returns, has stored a token and touched no file. *)
Lemma authenticate_returns (s s' : State) :
  authenticate s = (Return tt, s') -> same_store s s'.
Proof.
  unfold authenticate. run. rewrite fetch_token_run.
  destruct (tokenEndpoint _ _ _) as [e|status payload]; [discriminate|]. run.
  destruct (ok (status, payload)); cbn [negb]; unfold json, prop; cbn [snd];
    destruct payload as [why| |fields]; run; try discriminate.
  intros [= <-]. repeat split. eexists. split; [trace_added | reflexivity].
Qed.

Lemma loadBookmark_returns (s s' : State) :
  loadBookmark s = (Return tt, s') -> same_store s s'.
Proof.
  destruct (loadBookmark_cases s) as [(v & nextUrl & _ & _ & _ & ->)|(_ & ->)].
  - intros [= <-]. repeat split. eexists. split; [trace_added | reflexivity].
  - rewrite startFromLookback_run. destruct (JsDate.toISOString _); [|discriminate].
    intros [= <-]. repeat split. eexists. split; [trace_added | reflexivity].
Qed.

(** On a ready sink, what [concat] gives is the sink with the records added. *)
Lemma sink_concat (s : State) (logs : list JSON) (all : JSON) :
  sink_ready s ->
  js_concat (existing_logs s) logs = inr all ->
  all = JArr (sink s ++ logs).
Proof.
  intros (_ & Hread & Hstr). unfold existing_logs, sink.
  rewrite decide_False by done.
  destruct (files (world s) !! (outputFile (this s))) as [[v|text]|] eqn:Hfile;
    [|by intros [= <-]..].
  destruct v; cbn; intros [= <-]; [|reflexivity]. by destruct (Hstr s0).
Qed.

(** What a pass that returned did: it added the size of its page to the
    total and, when the page had records, made one append, of these
    records; on a ready sink the records are at the end of the sink. *)
Lemma iteration_effect (total : nat) (s s' : State) (hasMore : bool) (total' : nat) :
  iteration total s = (Return (hasMore, total'), s') ->
  exists logs added,
    total' = (total + length logs)%nat
    /\ outputFile (this s') = outputFile (this s)
    /\ trace (world s') = trace (world s) ++ added
    /\ (logs = [] -> hasMore = false /\ List.filter is_append added = [])
    /\ (logs <> [] ->
        exists e, List.filter is_append added = [e] /\ persists_records (this s) logs e)
    /\ (sink_ready s -> sink s' = sink s ++ logs /\ sink_ready s').
Proof.
  intros Hrun. destruct (iteration_returns total s s' _ Hrun) as [pg Hpage].
  destruct (default [] (results pg)) as [|r logs'] eqn:Hlogs.
  - (* caught up: only the bookmark file is written, with a cursor *)
    rewrite (iteration_no_records total s pg Hpage Hlogs) in Hrun. cbn zeta in Hrun.
    destruct (timestamp (world s)) as [iso|]; [|discriminate].
    destruct (decide _); [discriminate|]. injection Hrun as <- <- <-.
    exists []. eexists. cbn [length]. split; [lia|]. split; [reflexivity|].
    split; [trace_added|]. split; [done|]. split; [done|].
    intros (Hpaths & Hread & Hstr). unfold sink, sink_ready. unfold_states.
    world_simpl. rewrite lookup_insert_ne by done. by rewrite app_nil_r.
  - destruct (results pg) as [logs|] eqn:Hres; [|discriminate]. cbn in Hlogs.
    assert (Hne : logs <> []) by (rewrite Hlogs; done).
    clear Hlogs. exists logs.
    rewrite (iteration_records_run total s pg logs Hpage Hres Hne) in Hrun.
    cbn zeta in Hrun.
    destruct (js_concat (existing_logs s) logs) as [e|all] eqn:Hconcat; [discriminate|].
    pose proof (js_concat_appended _ _ _ Hconcat) as Hall.
    destruct (decide (outputFile (this s) ∈ writeDenied (world s))); [discriminate|].
    assert (Hshape : match all with JArr _ | JStr _ => true | _ => false end = true)
      by (by destruct Hall as [[old ->]|[text ->]]).
    destruct (truthy (next pg)).
    + destruct (timestamp (world s)) as [iso|]; [|discriminate].
      destruct (decide (bookmarkFile (this s) ∈ writeDenied (world s))); [discriminate|].
      injection Hrun as <- <- <-. eexists.
      split; [done|]. split; [reflexivity|]. split; [trace_added|].
      split; [done|]. split.
      * intros _. eexists. split; [|by exists all].
        unfold cursor_record, object_literal. cbn [List.filter is_append].
        by rewrite Hshape.
      * intros Hready. rewrite (sink_concat s logs all Hready Hconcat).
        destruct Hready as (Hpaths & Hread & Hstr).
        unfold sink, sink_ready. unfold_states. world_simpl.
        rewrite lookup_insert_ne, lookup_insert_eq by done. done.
    + injection Hrun as <- <- <-. eexists.
      split; [done|]. split; [reflexivity|]. split; [trace_added|].
      split; [done|]. split.
      * intros _. eexists. split; [|by exists all].
        unfold cursor_record, object_literal. cbn [List.filter is_append].
        by rewrite Hshape.
      * intros Hready. rewrite (sink_concat s logs all Hready Hconcat).
        destruct Hready as (Hpaths & Hread & Hstr).
        unfold sink, sink_ready. unfold_states. world_simpl.
        rewrite lookup_insert_eq. done.
Qed.

Lemma persists_records_path (p p' : Puller) (logs : list JSON) (e : Event) :
  outputFile p' = outputFile p -> persists_records p' logs e -> persists_records p logs e.
Proof. intros Hpath (all & Hall & ->). exists all. by rewrite Hpath. Qed.

(** What a loop that returned did, pass by pass. *)
Lemma while_hasMore_effect (fuel : nat) :
  forall (hasMore : bool) (total : nat) (s s' : State) (n : nat),
    while_hasMore fuel hasMore total s = (Return n, s') ->
    exists pages added,
      n = (total + sum_list (length <$> pages))%nat
      /\ Forall (fun logs => logs <> []) pages
      /\ outputFile (this s') = outputFile (this s)
      /\ trace (world s') = trace (world s) ++ added
      /\ Forall2 (fun logs e => persists_records (this s) logs e) pages
           (List.filter is_append added)
      /\ (sink_ready s -> sink s' = sink s ++ concat pages).
Proof.
  induction fuel as [|fuel IH]; intros hasMore total s s' n.
  - destruct hasMore; [discriminate|]. intros [= <- <-].
    exists [], []. cbn. rewrite !app_nil_r. repeat split; [lia | done..].
  - destruct hasMore; [|rewrite while_hasMore_done; intros [= <- <-];
      exists [], []; cbn; rewrite !app_nil_r; repeat split; [lia | done..]].
    rewrite while_hasMore_step.
    destruct (iteration total s) as [[[hasMore total']|e|] s1] eqn:Hpass;
      try discriminate.
    destruct (iteration_effect total s s1 hasMore total' Hpass)
      as (logs & added1 & -> & Hout1 & Htrace1 & Hnil & Hcons & Hsink1).
    intros Hloop.
    apply IH in Hloop as (pages & added2 & -> & Hpages & Hout2 & Htrace2 & Hwrites & Hsink2).
    change (outputFile (this (slept s1))) with (outputFile (this s1)) in *.
    change (sink (slept s1)) with (sink s1) in Hsink2.
    change (sink_ready (slept s1)) with (sink_ready s1) in Hsink2.
    assert (Htrace : trace (world s') = trace (world s) ++ added1 ++ Timeout 100 :: added2).
    { rewrite Htrace2. unfold slept, with_world. world_simpl. rewrite Htrace1.
      by rewrite <- !app_assoc. }
    assert (Hwrites' : Forall2 (fun logs e => persists_records (this s) logs e) pages
                         (List.filter is_append added2)).
    { eapply Forall2_impl; [exact Hwrites|]. intros l e.
      by apply persists_records_path. }
    destruct logs as [|r logs'].
    + destruct Hnil as [_ Hfilter]; [done|].
      exists pages, (added1 ++ Timeout 100 :: added2).
      split; [cbn; lia|]. split; [done|]. split; [congruence|]. split; [done|].
      split; [by rewrite List.filter_app, Hfilter|].
      intros Hready. destruct (Hsink1 Hready) as [Hs1 Hready1].
      by rewrite (Hsink2 Hready1), Hs1, app_nil_r.
    + destruct Hcons as (e & Hfilter & He); [done|].
      exists ((r :: logs') :: pages), (added1 ++ Timeout 100 :: added2).
      split; [cbn; lia|]. split; [by constructor|]. split; [congruence|].
      split; [done|].
      split; [rewrite List.filter_app, Hfilter; by constructor|].
      intros Hready. destruct (Hsink1 Hready) as [Hs1 Hready1].
      rewrite (Hsink2 Hready1), Hs1. cbn [concat]. by rewrite <- app_assoc.
Qed.

(** C6, as the code has it: a run that returns resolves to [undefined];
    the last thing it does is log "Log pull completed. Total logs
    pulled: n", where [n] is the sum of the sizes of the pages appended:
    the appends of the run are one per page, each with the records of
    its page at the end; on an output file that is distinct from the
    bookmark file, readable and not a JSON string, the file ends up
    holding what it held followed by the records of these pages. *)
Theorem pullLogs_logs_total (fuel : nat) (s s' : State) (v : JsVal) :
  pullLogs fuel s = (Return v, s') ->
  v = undefined
  /\ exists pages,
       let n := sum_list (length <$> pages) in
       last (trace (world s'))
       = Some (ConsoleLog ("Log pull completed. Total logs pulled: " +:+ string_of_nat n))
       /\ Forall (fun logs => logs <> []) pages
       /\ Forall2 (fun logs e => persists_records (this s) logs e) pages
            (List.filter is_append (new_events s s'))
       /\ (sink_ready s -> sink s' = sink s ++ concat pages).
Proof.
  unfold pullLogs. run.
  destruct (authenticate _) as [[[]|e|] s1] eqn:Hauth; run; try discriminate.
  apply authenticate_returns in Hauth.
  destruct (loadBookmark _) as [[[]|e|] s2] eqn:Hload; run; try discriminate.
  apply loadBookmark_returns in Hload.
  destruct (while_hasMore fuel true 0 s2) as [[n|e|] s3] eqn:Hloop; run; try discriminate.
  apply while_hasMore_effect in Hloop
    as (pages & added & -> & Hpages & Hout & Htrace & Hwrites & Hsink).
  intros [= <- <-]. split; [reflexivity|]. exists pages. cbn zeta.
  split; [world_simpl; by rewrite last_snoc|]. split; [done|].
  pose proof Hauth as (_ & _ & Hout1 & _ & added1 & Htrace1 & Hfilter1).
  pose proof Hload as (_ & _ & Hout2 & _ & added2 & Htrace2 & Hfilter2).
  world_simpl. split.
  - erewrite new_events_app; cycle 1.
    { world_simpl. rewrite Htrace, Htrace2, Htrace1. world_simpl.
      rewrite <- !app_assoc. reflexivity. }
    cbn [app List.filter is_append].
    rewrite !List.filter_app, Hfilter1, Hfilter2. cbn [List.filter is_append app].
    rewrite app_nil_r.
    eapply Forall2_impl; [exact Hwrites|]. intros l e.
    apply persists_records_path. by rewrite Hout2, Hout1.
  - intros Hready.
    apply same_store_sink in Hauth as [Hsink1 Hready1].
    apply same_store_sink in Hload as [Hsink2 Hready2].
    change (sink {| this := this s3; world := _ |}) with (sink s3).
    rewrite Hsink, Hsink2, Hsink1; [done|]. by apply Hready2, Hready1.
Qed.

(** ** The theorems at the sample states *)

Lemma fetchLogs_requires_token_fresh :
  truthy (accessToken (this sample_start)) = false
  /\ fetchLogs sample_start
     = (Throw (mkError Error "Not authenticated. Call authenticate() first."),
        sample_start).
Proof.
  split; [reflexivity | apply fetchLogs_requires_token; reflexivity].
Defined.

Lemma sample_syncing_served :
  page_served sample_syncing (page (Some [JStr "r1"; JStr "r2"]) (Some (JStr "L2"))).
Proof. split; [reflexivity|]. exists 200. split; [lia|]. vm_compute. reflexivity. Defined.

Lemma records_persisted_before_cursor_sample :
  exists added,
    trace (world (snd (iteration 0 sample_syncing)))
    = trace (world sample_syncing) ++ added
    /\ preceded (persists_cursor (this sample_syncing))
         (persists_records (this sample_syncing) [JStr "r1"; JStr "r2"]) added.
Proof.
  apply (records_persisted_before_cursor 0 sample_syncing
           (page (Some [JStr "r1"; JStr "r2"]) (Some (JStr "L2")))).
  - exact sample_syncing_served.
  - reflexivity.
  - discriminate.
Defined.

Lemma dead_end_served :
  page_served dead_end_state (page (Some [JStr "r3"]) (Some JNull)).
Proof. split; [reflexivity|]. exists 200. split; [lia | reflexivity]. Defined.

(** C2 as the spec words it fails: a page with one record and no
    continuation locator is fetched and appended, the pass returns, and
    the bookmark file was not written; it still holds the cursor [L1]. *)
Lemma dead_end_leaves_cursor :
  let pg := page (Some [JStr "r3"]) (Some JNull) in
  let s' := snd (iteration 0 dead_end_state) in
  page_served dead_end_state pg
  /\ results pg = Some [JStr "r3"]
  /\ truthy (next pg) = false
  /\ fst (iteration 0 dead_end_state) = Return (false, 1%nat)
  /\ sink s' = [JStr "r3"]
  /\ cursor_overwritten dead_end_state s' = false
  /\ files (world s') !! "trelica_bookmark.json"
     = Some (Json (cursor_record (Some (JStr "L1")) "2025-08-25T10:00:00.000Z" undefined)).
Proof.
  cbv zeta. split; [exact dead_end_served|].
  repeat split; vm_compute; reflexivity.
Qed.

Lemma cursor_overwritten_unless_dead_end_sample :
  let s := sample_syncing in
  let s' := snd (iteration 0 s) in
  let pg := page (Some [JStr "r1"; JStr "r2"]) (Some (JStr "L2")) in
  let logs := default [] (results pg) in
  let path := bookmarkFile (this s) in
  (logs <> [] -> truthy (next pg) = true ->
   bookmark (this s') = next pg
   /\ cursor_overwritten s s' = true
   /\ exists iso, files (world s') !! path
                  = Some (Json (cursor_record (next pg) iso undefined)))
  /\ (logs = [] ->
      bookmark (this s') = bookmark (this s)
      /\ cursor_overwritten s s' = true
      /\ exists iso, files (world s') !! path
                     = Some (Json (cursor_record (bookmark (this s)) iso
                                     (Some (JStr caughtUpNote)))))
  /\ (logs <> [] -> truthy (next pg) = false ->
      bookmark (this s') = bookmark (this s)
      /\ Forall (fun e => ~ persists_cursor (this s) e) (new_events s s')
      /\ (path <> outputFile (this s) ->
          cursor_overwritten s s' = false
          /\ files (world s') !! path = files (world s) !! path)).
Proof.
  apply (cursor_overwritten_unless_dead_end 0 sample_syncing
           (snd (iteration 0 sample_syncing))
           (page (Some [JStr "r1"; JStr "r2"]) (Some (JStr "L2"))) (true, 2%nat)).
  - exact sample_syncing_served.
  - vm_compute. reflexivity.
Defined.

Lemma sample_second_pass_served :
  page_served sample_second_pass (page (Some []) (Some JNull)).
Proof. split; [reflexivity|]. exists 200. split; [lia|]. vm_compute. reflexivity. Defined.

Lemma caught_up_persists_current_locator_sample :
  let s := sample_second_pass in
  exists out s',
    while_hasMore 1 true 2 s = (out, s')
    /\ out <> Running
    /\ bookmark (this s') = bookmark (this s)
    /\ filter is_fetch (new_events s s') = [Fetch (logsRequest (this s))]
    /\ forall iso,
         timestamp (world s) = Some iso ->
         bookmarkFile (this s) ∉ writeDenied (world s) ->
         let cursor := cursor_record (bookmark (this s)) iso (Some (JStr caughtUpNote)) in
         out = Return 2%nat
         /\ files (world s') !! (bookmarkFile (this s)) = Some (Json cursor)
         /\ get_prop cursor "nextUrl" = Some (bookmark (this s))
         /\ get_prop cursor "note" = Some (Some (JStr caughtUpNote)).
Proof.
  apply (caught_up_persists_current_locator 0 2 sample_second_pass
           (page (Some []) (Some JNull))).
  - exact sample_second_pass_served.
  - reflexivity.
Defined.

Lemma dead_end_stops_the_loop_sample :
  exists out s',
    while_hasMore 5 true 0 dead_end_state = (out, s')
    /\ match fst (appendLogsToFile [JStr "r3"] (got_page 1 dead_end_state)) with
       | Return _ => out = Return (0 + 1)%nat
       | Throw e => out = Throw e
       | Running => False
       end
    /\ this s' = this dead_end_state
    /\ filter is_fetch (new_events dead_end_state s')
       = [Fetch (logsRequest (this dead_end_state))].
Proof.
  apply (dead_end_stops_the_loop 4 0 dead_end_state
           (page (Some [JStr "r3"]) (Some JNull)) [JStr "r3"]).
  - exact dead_end_served.
  - reflexivity.
  - discriminate.
  - reflexivity.
Defined.

(** C5 as the spec words it fails at [initialLookbackMonths = 0]: with
    no bookmark file, now minus 0 months is now, 2025-08-25, and the
    locator [loadBookmark] makes has [since] three months earlier. *)
Lemma zero_lookback_starts_three_months_back :
  let s := zero_lookback_start in
  let w := world s in
  configured_lookback zero_lookback_config 0
  /\ no_usable_bookmark s
  /\ JsDate.toISOString (monthsBefore (localTZA w) (JsDate.TimeClip (clock w)) 0)
     = Some "2025-08-25T10:30:45.123Z"
  /\ fst (loadBookmark s) = Return tt
  /\ bookmark (this (snd (loadBookmark s)))
     = Some (JStr (seedLocator "app.trelica.com" "2025-05-25T10:30:45.123Z"))
  /\ bookmark (this (snd (loadBookmark s)))
     <> Some (JStr (seedLocator (host (this s)) "2025-08-25T10:30:45.123Z")).
Proof.
  cbv zeta. split; [by left|]. split; [by right; left|].
  split; [vm_compute; reflexivity|]. split; [vm_compute; reflexivity|].
  split; [vm_compute; reflexivity|].
  vm_compute. intros H. discriminate H.
Qed.

Lemma seed_locator_nonzero_lookback_sample :
  exists s',
    loadBookmark sample_start = (Return tt, s')
    /\ bookmark (this s')
       = Some (JStr (seedLocator (host (this sample_start)) "2025-07-25T10:30:45.123Z"))
    /\ seedLocator (host (this sample_start)) "2025-07-25T10:30:45.123Z"
       = "https://" +:+ or_string (cfg_host sample_config) "app.trelica.com"
         +:+ "/api/audit/v1/logs?limit=1000&since="
         +:+ Encoding.encodeURIComponent "2025-07-25T10:30:45.123Z"
    /\ files (world s') = files sample_world.
Proof.
  apply (seed_locator_nonzero_lookback sample_config (Some JNull) sample_world 1).
  - by left.
  - lia.
  - right; left. reflexivity.
  - vm_compute. reflexivity.
Defined.

(** C6 as the spec words it fails: the sample run pulls two records and
    resolves to [undefined], not to a summary object. *)
Lemma sample_run_resolves_to_undefined :
  fst (pullLogs 2 sample_start) = Return undefined
  /\ sink (snd (pullLogs 2 sample_start)) = [JStr "r1"; JStr "r2"]
  /\ forall summary : JSON, fst (pullLogs 2 sample_start) <> Return (Some summary).
Proof.
  split; [vm_compute; reflexivity|]. split; [vm_compute; reflexivity|].
  intros summary. vm_compute. discriminate.
Qed.

Lemma pullLogs_logs_total_sample :
  let s := sample_start in
  let s' := snd (pullLogs 2 sample_start) in
  undefined = undefined
  /\ exists pages,
       let n := sum_list (length <$> pages) in
       last (trace (world s'))
       = Some (ConsoleLog ("Log pull completed. Total logs pulled: " +:+ string_of_nat n))
       /\ Forall (fun logs => logs <> []) pages
       /\ Forall2 (fun logs e => persists_records (this s) logs e) pages
            (List.filter is_append (new_events s s'))
       /\ (sink_ready s -> sink s' = sink s ++ concat pages).
Proof.
  apply (pullLogs_logs_total 2 sample_start (snd (pullLogs 2 sample_start)) undefined).
  vm_compute. reflexivity.
Defined.



Lemma no_results_served : page_served no_results_state (page None undefined).
Proof. split; [reflexivity|]. exists 200. split; [lia | reflexivity]. Defined.

Lemma missing_results_is_caught_up_sample :
  let s := no_results_state in
  let data := Json (cursor_record (bookmark (this s)) "2025-08-25T10:30:45.123Z"
                      (Some (JStr caughtUpNote))) in
  exists s',
    while_hasMore 1 true 0 s = (Return 0%nat, s')
    /\ this s' = this s
    /\ files (world s') = <[bookmarkFile (this s) := data]> (files (world s))
    /\ new_events s s'
       = [ConsoleLog "Fetching logs...";
          Fetch (logsRequest (this s));
          ConsoleLog "Fetched 0 logs";
          ConsoleLog "No new logs found - caught up to real-time";
          WriteFile (bookmarkFile (this s)) data;
          ConsoleLog ("Saved current position for next run: "
                      +:+ js_toString (bookmark (this s)));
          Timeout 100].
Proof.
  apply (missing_results_is_caught_up 0 0 no_results_state (page None undefined)).
  - exact no_results_served.
  - reflexivity.
  - vm_compute. reflexivity.
  - vm_compute. intros H. inversion H.
Defined.

Lemma unparseable_output_is_overwritten_sample :
  let s := garbled_state in
  let logs := [JStr "r1"; JStr "r2"] in
  exists s',
    appendLogsToFile logs s = (Return tt, s')
    /\ files (world s') = <[outputFile (this s) := Json (JArr logs)]> (files (world s))
    /\ new_events s s'
       = [ReadFile (outputFile (this s));
          WriteFile (outputFile (this s)) (Json (JArr logs));
          ConsoleLog ("Appended " +:+ string_of_nat (length logs) +:+ " logs to "
                      +:+ outputFile (this s))].
Proof.
  apply (unparseable_output_is_overwritten [JStr "r1"; JStr "r2"] garbled_state "[{").
  - discriminate.
  - vm_compute. reflexivity.
  - vm_compute. intros H. inversion H.
  - vm_compute. intros H. inversion H.
Defined.

(** ** The sample run, and the run after it *)

Example base64_credentials :
  Encoding.base64 "abc123def456:supersecretkey789"
  = "YWJjMTIzZGVmNDU2OnN1cGVyc2VjcmV0a2V5Nzg5".
Proof. reflexivity. Qed.

Example sample_seed_locator :
  bookmark (this sample_syncing)
  = Some (JStr "https://app.trelica.com/api/audit/v1/logs?limit=1000&since=2025-07-25T10%3A30%3A45.123Z").
Proof. vm_compute. reflexivity. Qed.

(** The scenario of the spec: two records and [L2], then an empty page. *)
Example sample_run_files :
  fst (pullLogs 2 sample_start) = Return undefined
  /\ files (world (snd (pullLogs 2 sample_start))) !! "trelica_audit_logs.json"
     = Some (Json (JArr [JStr "r1"; JStr "r2"]))
  /\ files (world (snd (pullLogs 2 sample_start))) !! "trelica_bookmark.json"
     = Some (Json (cursor_record (Some (JStr "L2")) "2025-08-25T10:30:45.223Z"
                     (Some (JStr caughtUpNote))))
  /\ last (trace (world (snd (pullLogs 2 sample_start))))
     = Some (ConsoleLog "Log pull completed. Total logs pulled: 2").
Proof. repeat split; vm_compute; reflexivity. Qed.

(** With one unit of fuel the sample run is still in its loop. *)
Example sample_run_needs_two_passes : fst (pullLogs 1 sample_start) = Running.
Proof. vm_compute. reflexivity. Qed.

(** Running again on what the sample run left pulls nothing, leaves the
    output file alone and writes the same locator back. *)
Example sample_rerun_is_idempotent :
  let s' := snd (pullLogs 1 sample_rerun_start) in
  fst (pullLogs 1 sample_rerun_start) = Return undefined
  /\ bookmark (this s') = Some (JStr "L2")
  /\ sink s' = [JStr "r1"; JStr "r2"]
  /\ files (world s') !! "trelica_bookmark.json"
     = Some (Json (cursor_record (Some (JStr "L2")) "2025-08-25T10:30:45.323Z"
                     (Some (JStr caughtUpNote))))
  /\ last (trace (world s'))
     = Some (ConsoleLog "Log pull completed. Total logs pulled: 0").
Proof. cbv zeta. repeat split; vm_compute; reflexivity. Qed.

(** * Further properties of the class *)

(** ** The constructor *)

Lemma or_string_nonempty (s : option string) (d : string) :
  d <> EmptyString -> or_string s d <> EmptyString.
Proof.
  intros Hd. unfold or_string. destruct s as [x|]; [|done].
  unfold string_eqb. case_bool_decide; done.
Qed.

(** X1: whatever the configuration, a new instance has a host, a
    bookmark file and an output file that are not the empty string and a
    lookback that is not 0, and it holds neither a token nor a bookmark. *)
Theorem constructor_never_empty (config : Config) :
  let p := constructor config in
  host p <> EmptyString
  /\ bookmarkFile p <> EmptyString
  /\ outputFile p <> EmptyString
  /\ initialLookbackMonths p <> 0
  /\ truthy (accessToken p) = false
  /\ truthy (bookmark p) = false.
Proof.
  cbn zeta. cbn [constructor host bookmarkFile outputFile initialLookbackMonths
                 accessToken bookmark].
  repeat split; try (by apply or_string_nonempty).
  unfold or_number. destruct (cfg_initialLookbackMonths config) as [n|]; [|done].
  destruct (Z.eqb_spec n 0); done.
Qed.

(** ** fetchLogs *)

Lemma fetchLogs_run (s : State) :
  fetchLogs s
  = if truthy (accessToken (this s)) then
      match logsEndpoint (world s) (trace (world s)) (logsRequest (this s)) with
      | Unreachable e => (Throw e, sent s)
      | Responded status payload =>
          if (200 <=? status) && (status <=? 299) then (fetchResult payload, sent s)
          else (Throw (fetchError status payload), sent s)
      end
    else (Throw notAuthenticated, s).
Proof.
  unfold fetchLogs, fetch, sent. run.
  destruct (truthy (accessToken (this s))); cbn [negb]; run; [|reflexivity].
  destruct (logsEndpoint (world s) (trace (world s)) (logsRequest (this s)))
    as [e|status payload]; run; [reflexivity|].
  unfold ok. cbn [fst].
  destruct ((200 <=? status) && (status <=? 299)); cbn [negb];
    unfold json, prop, fetchError;
    cbn [snd]; destruct payload as [why| |fields]; run; try reflexivity.
  destruct (truthy (title fields)); reflexivity.
Qed.

(** X2: on a status outside 200..299 with a JSON object as body,
    [fetchLogs] throws "Failed to fetch logs: <status> - <detail>",
    where the detail is the [title] of the body when that is truthy and
    its [message] otherwise; the request it sent is all it did. *)
Theorem fetchLogs_failure_prefers_title
    (s : State) (status : Z) (fields : PageFields) :
  truthy (accessToken (this s)) = true ->
  logsEndpoint (world s) (trace (world s)) (logsRequest (this s))
  = Responded status (JsonObject fields) ->
  ~ (200 <= status <= 299) ->
  let reason := if truthy (title fields) then title fields else detail fields in
  fetchLogs s
  = (Throw (mkError Error ("Failed to fetch logs: " +:+ string_of_Z status +:+ " - "
                           +:+ js_toString reason)),
     sent s).
Proof.
  intros Htoken Hresp Hstatus. rewrite fetchLogs_run, Htoken, Hresp.
  destruct ((200 <=? status) && (status <=? 299)) eqn:Hok; [|reflexivity].
  apply andb_true_iff in Hok as [H1 H2]. apply Z.leb_le in H1, H2. lia.
Qed.

(** X3: whatever the answer, [fetchLogs] sends at most one request and
    does nothing else to the instance or the files: both are as they
    were, and the trace has grown by that request or not at all. *)
Theorem fetchLogs_only_sends (s : State) :
  let s' := snd (fetchLogs s) in
  this s' = this s
  /\ files (world s') = files (world s)
  /\ (new_events s s' = [] \/ new_events s s' = [Fetch (logsRequest (this s))]).
Proof.
  rewrite fetchLogs_run.
  assert (Hstay : new_events s s = [])
    by (apply new_events_app; by rewrite app_nil_r).
  assert (Hsent : new_events s (sent s) = [Fetch (logsRequest (this s))])
    by (apply new_events_app; reflexivity).
  destruct (truthy (accessToken (this s))); [|cbn; auto 10].
  destruct (logsEndpoint _ _ _) as [e|status payload]; [cbn; auto 10|].
  destruct ((200 <=? status) && (status <=? 299)); [|cbn; auto 10].
  destruct payload; cbn; auto 10.
Qed.

(** ** authenticate *)

Lemma authenticate_accepted (s : State) (status : Z) (fields : TokenFields) :
  tokenEndpoint (world s) (trace (world s)) (tokenRequest (this s))
  = Responded status (JsonObject fields) ->
  200 <= status <= 299 ->
  authenticate s = (Return tt, authenticated (access_token fields) s).
Proof.
  intros Hresp Hstatus. unfold authenticate. run.
  pose proof (fetch_token_run s) as Hfetch. rewrite Hresp in Hfetch.
  rewrite Hfetch. run.
  apply (ok_spec status (JsonObject fields)) in Hstatus. rewrite Hstatus.
  reflexivity.
Qed.

(** X4: when the token endpoint answers 2xx with an object whose
    [access_token] is truthy, [authenticate] stores it without touching
    a file or the bookmark, and the [fetchLogs] that follows sends its
    request with the header [Authorization: Bearer <token>] instead of
    throwing "Not authenticated". *)
Theorem authenticate_then_fetchLogs
    (s : State) (status : Z) (fields : TokenFields) :
  tokenEndpoint (world s) (trace (world s)) (tokenRequest (this s))
  = Responded status (JsonObject fields) ->
  200 <= status <= 299 ->
  truthy (access_token fields) = true ->
  exists s1,
    authenticate s = (Return tt, s1)
    /\ accessToken (this s1) = access_token fields
    /\ bookmark (this s1) = bookmark (this s)
    /\ files (world s1) = files (world s)
    /\ snd (fetchLogs s1) = sent s1
    /\ In ("Authorization", "Bearer " +:+ js_toString (access_token fields))
         (headers (logsRequest (this s1)))
    /\ url (logsRequest (this s1)) = bookmark (this s).
Proof.
  intros Hresp Hstatus Htoken. eexists.
  split; [by apply (authenticate_accepted s status fields)|].
  repeat split; [|by left].
  rewrite fetchLogs_run. cbn [authenticated this accessToken with_accessToken].
  rewrite Htoken. destruct (logsEndpoint _ _ _) as [e|st payload]; [reflexivity|].
  destruct ((200 <=? st) && (st <=? 299)); reflexivity.
Qed.

(** ** pullLogs when it fails *)

Lemma pullLogs_thrown (fuel : nat) (s s' : State) (e : JsError) :
  pullLogs fuel s = (Throw e, s') ->
  exists before,
    trace (world s') = before ++ [ConsoleError ("Error during log pull: " +:+ message e)].
Proof.
  unfold pullLogs, try_catch.
  match goal with
  | |- context [match ?body s with _ => _ end] =>
      destruct (body s) as [[v|e'|] s1]
  end; try discriminate.
  run. intros [= <- <-]. world_simpl. by eexists.
Qed.

Lemma pullLogs_returned (fuel : nat) (s s' : State) (v : JsVal) :
  pullLogs fuel s = (Return v, s') ->
  v = undefined
  /\ exists n,
       last (trace (world s'))
       = Some (ConsoleLog ("Log pull completed. Total logs pulled: " +:+ string_of_nat n)).
Proof.
  unfold pullLogs. run.
  destruct (authenticate _) as [[[]|e|] s1]; try discriminate.
  destruct (loadBookmark s1) as [[[]|e|] s2]; try discriminate.
  destruct (while_hasMore fuel true 0 s2) as [[n|e|] s3]; try discriminate.
  intros [= <- <-]. split; [done|]. exists n. world_simpl. apply last_snoc.
Qed.

(** X5: whenever [pullLogs] throws, the last thing it did was to write
    "Error during log pull: <message>" with [console.error], for the
    very error it throws. *)
Theorem pullLogs_logs_what_it_throws (fuel : nat) (s s' : State) (e : JsError) :
  pullLogs fuel s = (Throw e, s') ->
  last (trace (world s'))
  = Some (ConsoleError ("Error during log pull: " +:+ message e)).
Proof.
  intros Hrun. apply pullLogs_thrown in Hrun as [before ->]. apply last_snoc.
Qed.

(** X6: when the token endpoint answers 2xx with an object whose
    [access_token] is missing or falsy, [authenticate] still reports
    success; the run then fails in its first pass, with "Not
    authenticated. Call authenticate() first." unless the lookback date
    was invalid, having sent no request for logs and written no file. *)
Theorem missing_access_token_fails_late
    (fuel : nat) (s : State) (status : Z) (fields : TokenFields) :
  tokenEndpoint (world s) (trace (world (started s))) (tokenRequest (this s))
  = Responded status (JsonObject fields) ->
  200 <= status <= 299 ->
  truthy (access_token fields) = false ->
  exists e s',
    pullLogs (S fuel) s = (Throw e, s')
    /\ files (world s') = files (world s)
    /\ filter is_fetch (new_events s s') = [Fetch (tokenRequest (this s))]
    /\ In (ConsoleLog "Successfully authenticated") (new_events s s')
    /\ (fst (loadBookmark (authenticated (access_token fields) (started s))) = Return tt ->
        e = notAuthenticated).
Proof.
  intros Hresp Hstatus Htoken. unfold pullLogs. run.
  pose proof (authenticate_accepted (started s) status fields Hresp Hstatus) as Hauth.
  unfold started, with_world in Hauth. rewrite Hauth. run.
  set (s1 := authenticated _ _).
  assert (Hs1 : truthy (accessToken (this s1)) = false) by exact Htoken.
  destruct (loadBookmark_cases s1) as [(v & nextUrl & _ & _ & _ & ->)|(_ & ->)].
  - run. cbn [while_hasMore]. unfold iteration. run. rewrite fetchLogs_run.
    world_simpl. rewrite Hs1. run.
    eexists. eexists. split; [reflexivity|]. split; [reflexivity|].
    subst s1. unfold authenticated.
    erewrite new_events_app; [|trace_added].
    split; [reflexivity|]. split; [find_event | done].
  - rewrite startFromLookback_run.
    destruct (JsDate.toISOString _) as [iso|] eqn:Hiso.
    + run. cbn [while_hasMore]. unfold iteration. run. rewrite fetchLogs_run.
      world_simpl. rewrite Hs1. run.
      eexists. eexists. split; [reflexivity|]. split; [reflexivity|].
      subst s1. unfold authenticated.
      erewrite new_events_app; [|trace_added].
      split; [reflexivity|]. split; [find_event | done].
    + run. eexists. eexists. split; [reflexivity|]. split; [reflexivity|].
      subst s1. unfold authenticated.
      erewrite new_events_app; [|trace_added].
      split; [reflexivity|]. split; [find_event | discriminate].
Qed.

(** ** The bookmark file across runs *)

Lemma loadBookmark_reads_cursor (s : State) (nextUrl : JsVal) (iso : string) (note : JsVal) :
  files (world s) !! (bookmarkFile (this s)) = Some (Json (cursor_record nextUrl iso note)) ->
  (bookmarkFile (this s) ∉ readDenied (world s)) ->
  loadBookmark s
  = (Return tt,
     {| this := with_bookmark nextUrl (this s);
        world := emit (ConsoleLog ("Loaded bookmark: " +:+ js_toString nextUrl))
                   (emit (ReadFile (bookmarkFile (this s))) (world s)) |}).
Proof.
  intros Hfile Hread.
  destruct (loadBookmark_cases s) as [(v & url' & Hv & _ & Hprop & ->)|(Hno & _)].
  - rewrite Hfile in Hv. injection Hv as <-.
    rewrite cursor_record_nextUrl in Hprop. injection Hprop as <-. reflexivity.
  - destruct Hno as [H|[H|[[text H]|H]]]; [done| | |]; rewrite Hfile in H;
      discriminate.
Qed.

(** X7: a cursor that [saveBookmark] wrote is read back by
    [loadBookmark]: on any instance with the same bookmark file, in the
    world [saveBookmark] left, [loadBookmark] returns with
    [this.bookmark] the locator that was saved, and changes no file. *)
Theorem saveBookmark_then_loadBookmark
    (nextUrl : JsVal) (s s1 : State) (p : Puller) :
  saveBookmark nextUrl s = (Return tt, s1) ->
  bookmarkFile p = bookmarkFile (this s) ->
  (bookmarkFile p ∉ readDenied (world s)) ->
  exists s2,
    loadBookmark {| this := p; world := world s1 |} = (Return tt, s2)
    /\ bookmark (this s2) = nextUrl
    /\ bookmark (this s1) = nextUrl
    /\ files (world s2) = files (world s1).
Proof.
  intros Hsave Hsame Hread. rewrite saveBookmark_run in Hsave.
  destruct (timestamp (world s)) as [iso|]; [|discriminate].
  destruct (decide _); [discriminate|]. injection Hsave as <-.
  eexists. split; [apply (loadBookmark_reads_cursor _ nextUrl iso undefined)|].
  - unfold saved_bookmark. world_simpl. rewrite Hsame. apply lookup_insert_eq.
  - unfold saved_bookmark. world_simpl. exact Hread.
  - repeat split.
Qed.

(** X8: a pass that found no records leaves a cursor from which the
    next run resumes at the very locator it fetched: on any instance
    with the same bookmark file, in the world that pass left,
    [loadBookmark] returns with [this.bookmark] that locator. *)
Theorem caught_up_cursor_resumes
    (total : nat) (s s' : State) (pg : PageFields) (r : bool * nat) (p : Puller) :
  page_served s pg -> default [] (results pg) = [] ->
  iteration total s = (Return r, s') ->
  bookmarkFile p = bookmarkFile (this s) ->
  (bookmarkFile p ∉ readDenied (world s)) ->
  exists s2,
    loadBookmark {| this := p; world := world s' |} = (Return tt, s2)
    /\ bookmark (this s2) = bookmark (this s)
    /\ url (logsRequest (this s2)) = url (logsRequest (this s)).
Proof.
  intros Hpage Hres Hrun Hsame Hread.
  rewrite (iteration_no_records total s pg Hpage Hres) in Hrun. cbn zeta in Hrun.
  destruct (timestamp (world s)) as [iso|]; [|discriminate].
  destruct (decide _); [discriminate|]. injection Hrun as _ <-.
  eexists.
  split; [apply (loadBookmark_reads_cursor _ (bookmark (this s)) iso
                   (Some (JStr caughtUpNote)))|].
  - unfold got_page, with_world. world_simpl. rewrite Hsame. apply lookup_insert_eq.
  - unfold got_page, with_world. world_simpl. exact Hread.
  - split; reflexivity.
Qed.

(** X9: a bookmark file that holds JSON other than [null] but no
    [nextUrl] is taken as a bookmark all the same: [loadBookmark]
    returns with [this.bookmark] undefined, logs "Loaded bookmark:
    undefined" and derives no start from the lookback, so that the next
    request goes to no URL at all. *)
Theorem bookmark_without_nextUrl (s : State) (v : JSON) :
  files (world s) !! (bookmarkFile (this s)) = Some (Json v) ->
  (bookmarkFile (this s) ∉ readDenied (world s)) ->
  get_prop v "nextUrl" = Some undefined ->
  exists s',
    loadBookmark s = (Return tt, s')
    /\ bookmark (this s') = undefined
    /\ url (logsRequest (this s')) = undefined
    /\ new_events s s'
       = [ReadFile (bookmarkFile (this s)); ConsoleLog "Loaded bookmark: undefined"].
Proof.
  intros Hfile Hread Hprop.
  destruct (loadBookmark_cases s) as [(v' & url' & Hv & _ & Hprop' & ->)|(Hno & _)].
  - rewrite Hfile in Hv. injection Hv as <-. rewrite Hprop in Hprop'.
    injection Hprop' as <-. eexists. split; [reflexivity|]. repeat split.
    apply new_events_app. trace_added.
  - destruct Hno as [H|[H|[[text H]|H]]]; [done| | |]; rewrite Hfile in H;
      try discriminate.
    injection H as ->. discriminate.
Qed.

(** X10: [loadBookmark] swallows every failure to read or parse the
    bookmark file: it returns, or throws the RangeError of an invalid
    lookback date, and nothing else.  It writes no file, sends no
    request and leaves the token alone. *)
Theorem loadBookmark_reads_only (s : State) :
  let s' := snd (loadBookmark s) in
  (fst (loadBookmark s) = Return tt
   \/ fst (loadBookmark s) = Throw (mkError RangeError "Invalid time value"))
  /\ files (world s') = files (world s)
  /\ accessToken (this s') = accessToken (this s)
  /\ filter is_write (new_events s s') = []
  /\ filter is_fetch (new_events s s') = [].
Proof.
  destruct (loadBookmark_cases s) as [(v & nextUrl & _ & _ & _ & ->)|(_ & ->)].
  - cbn zeta. cbn [fst snd]. split; [by left|]. repeat split.
    all: erewrite new_events_app; [|trace_added]; reflexivity.
  - rewrite startFromLookback_run. destruct (JsDate.toISOString _) as [iso|].
    + cbn zeta. cbn [fst snd]. split; [by left|]. repeat split.
      all: erewrite new_events_app; [|trace_added]; reflexivity.
    + cbn zeta. cbn [fst snd]. split; [by right|]. repeat split.
      all: erewrite new_events_app; [|trace_added]; reflexivity.
Qed.

(** ** appendLogsToFile *)

Lemma bind_run {A B} (m : M A) (k : A -> M B) (s : State) :
  (m ≫= k) s
  = match m s with
    | (Return a, s1) => k a s1
    | (Throw e, s1) => (Throw e, s1)
    | (Running, s1) => (Running, s1)
    end.
Proof. unfold mbind, M_bind. destruct (m s) as [[a|e|] s1]; reflexivity. Qed.

Lemma existing_logs_wrote (all : JSON) (n : nat) (s : State) :
  (outputFile (this s) ∉ readDenied (world s)) ->
  existing_logs (wrote_logs all n (after_read s)) = all.
Proof.
  intros Hread. unfold existing_logs, wrote_logs, after_read, with_world. world_simpl.
  rewrite decide_False by done. by rewrite lookup_insert_eq.
Qed.

(** X11: when the output file can be read and does not hold a JSON
    string, appending [a] and then [b] comes to the same as appending
    [a ++ b] at once: the same outcome, the same files. *)
Theorem appendLogsToFile_twice (a b : list JSON) (s : State) :
  (outputFile (this s) ∉ readDenied (world s)) ->
  (forall text, files (world s) !! (outputFile (this s)) <> Some (Json (JStr text))) ->
  let once := appendLogsToFile (a ++ b) s in
  let twice := (appendLogsToFile a;; appendLogsToFile b) s in
  fst twice = fst once
  /\ files (world (snd twice)) = files (world (snd once))
  /\ this (snd twice) = this (snd once).
Proof.
  intros Hread Hstr. cbn zeta. rewrite bind_run.
  destruct a as [|x a]; [done|].
  destruct b as [|y b].
  { rewrite app_nil_r. destruct (appendLogsToFile (x :: a) s) as [[[]|e|] s1]; done. }
  rewrite !appendLogsToFile_run by done.
  assert (Hcases : (exists items, existing_logs s = JArr items)
                   \/ exists e, forall logs, js_concat (existing_logs s) logs = inl e).
  { unfold existing_logs in *. rewrite decide_False by done.
    destruct (files (world s) !! (outputFile (this s))) as [[v|text]|] eqn:Hfile;
      [|left; by eexists..].
    destruct v as [ | | |text|items| ]; try (right; by eexists).
    - by destruct (Hstr text).
    - left. by eexists. }
  destruct Hcases as [[items Hitems]|[e He]]; [|by rewrite !He].
  rewrite Hitems. cbn [js_concat].
  destruct (decide (outputFile (this s) ∈ writeDenied (world s))) as [Hw|Hw]; [done|].
  rewrite appendLogsToFile_run by done.
  rewrite existing_logs_wrote by done. cbn [js_concat].
  change (outputFile (this (wrote_logs ?all ?n (after_read s)))) with (outputFile (this s)).
  change (writeDenied (world (wrote_logs ?all ?n (after_read s))))
    with (writeDenied (world s)).
  rewrite decide_False by done. cbn [fst snd].
  split; [done|]. split; [|done].
  unfold wrote_logs, after_read, with_world. world_simpl.
  rewrite insert_insert_eq. by rewrite <- app_assoc.
Qed.

(** X12: an output file that holds JSON other than an array or a string
    (an object, a number, [true], [null]) is never overwritten:
    [appendLogsToFile] throws a TypeError once it has read the file, and
    leaves every file as it was. *)
Theorem appendLogsToFile_needs_array (s : State) (v : JSON) (logs : list JSON) :
  files (world s) !! (outputFile (this s)) = Some (Json v) ->
  (outputFile (this s) ∉ readDenied (world s)) ->
  (forall items, v <> JArr items) ->
  (forall text, v <> JStr text) ->
  logs <> [] ->
  exists e,
    appendLogsToFile logs s = (Throw e, after_read s)
    /\ errName e = TypeError
    /\ files (world (after_read s)) = files (world s)
    /\ new_events s (after_read s) = [ReadFile (outputFile (this s))].
Proof.
  intros Hfile Hread Harr Hstr Hne. rewrite appendLogsToFile_run by done.
  unfold existing_logs. rewrite decide_False by done. rewrite Hfile.
  assert (Hlast : new_events s (after_read s) = [ReadFile (outputFile (this s))])
    by (apply new_events_app; trace_added).
  destruct v as [ | | |text|items| ]; cbn [js_concat]; try (eexists; by repeat split).
  - by destruct (Hstr text).
  - by destruct (Harr items).
Qed.

(** ** A pass of the loop that fails or meets a dead end *)

Lemma insert_other (m : gmap string FileData) (k k' : string) (d : FileData) :
  k' <> k -> <[k := d]> m !! k' = m !! k'.
Proof. intros. by apply lookup_insert_ne. Qed.

(** X13: a pass of the loop that throws, for whatever reason, has not
    moved the cursor: [this] is as it was, and when the bookmark file is
    not the output file it still has the content it had and was not
    written.  In this model a write that fails leaves the file as it
    was. *)
Theorem failed_pass_keeps_cursor (total : nat) (s s' : State) (e : JsError) :
  iteration total s = (Throw e, s') ->
  this s' = this s
  /\ (bookmarkFile (this s) <> outputFile (this s) ->
      files (world s') !! (bookmarkFile (this s))
      = files (world s) !! (bookmarkFile (this s))
      /\ cursor_overwritten s s' = false).
Proof.
  destruct (truthy (accessToken (this s))) eqn:Htoken.
  2: { unfold iteration. run. rewrite fetchLogs_run. world_simpl. rewrite Htoken.
       intros [= <- <-]. split; [done|]. intros _. split; [done|].
       unfold cursor_overwritten. erewrite new_events_app; [|trace_added]. done. }
  destruct (logsEndpoint (world s) (trace (world s) ++ [ConsoleLog "Fetching logs..."])
              (logsRequest (this s))) as [e0|status payload] eqn:Hresp.
  { unfold iteration. run. rewrite fetchLogs_run. world_simpl. rewrite Htoken, Hresp.
    intros [= <- <-]. split; [done|]. intros _. split; [done|].
    unfold cursor_overwritten, sent. erewrite new_events_app; [|trace_added]. done. }
  destruct ((200 <=? status) && (status <=? 299)) eqn:Hok.
  2: { unfold iteration. run. rewrite fetchLogs_run. world_simpl.
       rewrite Htoken, Hresp, Hok.
       intros [= <- <-]. split; [done|]. intros _. split; [done|].
       unfold cursor_overwritten, sent. erewrite new_events_app; [|trace_added]. done. }
  destruct payload as [why| |pg].
  1, 2: unfold iteration; run; rewrite fetchLogs_run; world_simpl;
    rewrite Htoken, Hresp, Hok; cbn [fetchResult]; run;
    intros [= <- <-]; (split; [done|]); intros _; (split; [done|]);
    unfold cursor_overwritten, sent; (erewrite new_events_app; [|trace_added]); done.
  assert (Hpage : page_served s pg).
  { split; [done|]. exists status. apply andb_true_iff in Hok as [H1 H2].
    apply Z.leb_le in H1, H2. split; [lia | done]. }
  destruct (results pg) as [[|r logs]|] eqn:Hres.
  1, 3: rewrite (iteration_no_records total s pg Hpage) by (by rewrite Hres);
    cbn zeta; destruct (timestamp (world s)) as [iso|];
    [destruct (decide _); [|discriminate]|];
    intros [= <- <-]; (split; [done|]); intros _; (split; [done|]);
    unfold cursor_overwritten; (erewrite new_events_app; [|trace_added]); done.
  rewrite (iteration_records_run total s pg (r :: logs) Hpage Hres) by done.
  cbn zeta. destruct (js_concat _ _) as [e1|all].
  { intros [= <- <-]. split; [done|]. intros _. split; [done|].
    unfold cursor_overwritten. erewrite new_events_app; [|trace_added]. done. }
  destruct (decide _).
  { intros [= <- <-]. split; [done|]. intros _. split; [done|].
    unfold cursor_overwritten. erewrite new_events_app; [|trace_added]. done. }
  destruct (truthy (next pg)); [|discriminate].
  assert (Hkept : bookmarkFile (this s) <> outputFile (this s) ->
                  string_eqb (outputFile (this s)) (bookmarkFile (this s)) = false).
  { intros Hother. apply string_eqb_ne. congruence. }
  destruct (timestamp (world s)) as [iso|];
    [destruct (decide _); [|discriminate]|].
  all: intros [= <- <-]; (split; [done|]); intros Hother; split;
    [ unfold_states; world_simpl; by apply insert_other
    | unfold cursor_overwritten; (erewrite new_events_app; [|trace_added]);
      cbn [existsb writes_to]; by rewrite (Hkept Hother) ].
Qed.

(** X14: a page with records and no continuation leaves the cursor
    where it was, so what resumes from it is served these records
    again: a later pass that gets the same page, on the files the first
    one left, appends them a second time. *)
Theorem dead_end_page_is_appended_again
    (total total' : nat) (s s1 t t1 : State) (pg : PageFields) (logs : list JSON)
    (r r' : bool * nat) :
  page_served s pg -> results pg = Some logs -> logs <> [] ->
  truthy (next pg) = false ->
  sink_ready s ->
  iteration total s = (Return r, s1) ->
  files (world t) = files (world s1) ->
  readDenied (world t) = readDenied (world s) ->
  outputFile (this t) = outputFile (this s) ->
  bookmarkFile (this t) = bookmarkFile (this s) ->
  page_served t pg ->
  iteration total' t = (Return r', t1) ->
  bookmark (this s1) = bookmark (this s)
  /\ files (world s1) !! (bookmarkFile (this s))
     = files (world s) !! (bookmarkFile (this s))
  /\ sink t1 = sink s ++ logs ++ logs.
Proof.
  intros Hpage Hres Hne Hnext Hready Hrun Hfiles Hdenied Hout Hbook Hpage' Hrun'.
  rewrite (iteration_records_run total s pg logs Hpage Hres Hne) in Hrun.
  cbn zeta in Hrun.
  destruct (js_concat (existing_logs s) logs) as [e|all] eqn:Hall; [discriminate|].
  apply (sink_concat s logs all Hready) in Hall. subst all.
  destruct (decide _); [discriminate|]. rewrite Hnext in Hrun.
  injection Hrun as _ <-.
  destruct Hready as (Hother & Hread & Hstr).
  assert (Hsink : files (world t) !! (outputFile (this t))
                  = Some (Json (JArr (sink s ++ logs)))).
  { rewrite Hfiles, Hout. unfold_states. world_simpl. apply lookup_insert_eq. }
  assert (Hready' : sink_ready t).
  { split; [congruence|]. split; [by rewrite Hdenied, Hout|].
    intros text. by rewrite Hsink. }
  split; [reflexivity|]. split.
  { unfold_states. world_simpl. by apply insert_other. }
  rewrite (iteration_records_run total' t pg logs Hpage' Hres Hne) in Hrun'.
  cbn zeta in Hrun'.
  destruct (js_concat (existing_logs t) logs) as [e|all] eqn:Hall; [discriminate|].
  apply (sink_concat t logs all Hready') in Hall. subst all.
  destruct (decide _); [discriminate|]. rewrite Hnext in Hrun'.
  injection Hrun' as _ <-.
  assert (Hsink' : sink t = sink s ++ logs) by (unfold sink at 1; by rewrite Hsink).
  rewrite Hsink'. unfold sink at 1. unfold_states. world_simpl.
  rewrite lookup_insert_eq. by rewrite <- app_assoc.
Qed.

(** ** main *)

Section ParseInt.
Import JsNumber.

Lemma trimStart_plain (c : ascii) (rest : string) :
  (let n := byte c in
   negb ((9 <=? n) && (n <=? 13) || (n =? 32)) && negb (n =? 194) && negb (n =? 225)
   && negb (n =? 226) && negb (n =? 227) && negb (n =? 239))%N = true ->
  trimStart (String c rest) = String c rest.
Proof.
  cbn zeta. cbn [trimStart].
  destruct ((9 <=? byte c) && (byte c <=? 13) || (byte c =? 32))%N; [done|].
  destruct (byte c =? 194)%N; [done|]. destruct (byte c =? 225)%N; [done|].
  destruct (byte c =? 226)%N; [done|]. destruct (byte c =? 227)%N; [done|].
  destruct (byte c =? 239)%N; [done|]. intros _.
  destruct rest as [|d [|e rest]]; reflexivity.
Qed.

Ltac digit_value :=
  match goal with
  | |- context [digitValue 10 ?c] =>
      let v := eval vm_compute in (digitValue 10 c) in
      change (digitValue 10 c) with v
  end; unfold default; cbn [from_option id].

Lemma digits_acc (l : Decimal.uint) (acc : positive) :
  digits 10 (NilEmpty.string_of_uint l) (Some (Z.pos acc))
  = Some (Z.pos (Pos.of_uint_acc l acc)).
Proof.
  revert acc. induction l; intros acc; cbn [NilEmpty.string_of_uint digits Pos.of_uint_acc];
    [reflexivity|..];
    digit_value;
    match goal with
    | |- digits 10 _ (Some ?x) = _ =>
        match goal with
        | |- _ = Some (Z.pos (Pos.of_uint_acc _ ?p)) =>
            replace x with (Z.pos p) by lia
        end
    end; apply IHl.
Qed.

Lemma digits_zero (l : Decimal.uint) :
  digits 10 (NilEmpty.string_of_uint l) (Some 0) = Some (Z.of_N (Pos.of_uint l)).
Proof.
  induction l; cbn [NilEmpty.string_of_uint digits Pos.of_uint]; [reflexivity|..];
    digit_value; [exact IHl|..]; apply digits_acc.
Qed.

Lemma parseInt_uint (d : Decimal.uint) :
  parseInt (Some (NilZero.string_of_uint d)) = Some (Z.of_uint d)
  /\ parseInt (Some (String "-" (NilZero.string_of_uint d))) = Some (- Z.of_uint d).
Proof.
  unfold parseInt, Z.of_uint.
  change (default "undefined"%string (Some ?x)) with x.
  destruct d as [|d|d|d|d|d|d|d|d|d|d];
    cbn [NilZero.string_of_uint NilEmpty.string_of_uint];
    rewrite !trimStart_plain by reflexivity; [split; reflexivity| |..].
  1: { assert (Hm : match NilEmpty.string_of_uint d with
                 | String "x" rest | String "X" rest => (16, rest)
                 | _ => (10, String "0" (NilEmpty.string_of_uint d))
                 end = (10, String "0" (NilEmpty.string_of_uint d)))
      by (destruct d; reflexivity).
    rewrite Hm. cbn [digits]. digit_value. change (10 * 0 + 0) with 0.
    rewrite digits_zero. cbn [Pos.of_uint]. split; f_equal; lia. }
  all: cbn [digits]; digit_value;
    match goal with |- context [Some (10 * 0 + ?k)] =>
      let v := eval vm_compute in (10 * 0 + k) in change (10 * 0 + k) with v end;
    rewrite digits_acc; cbn [Pos.of_uint Z.of_N]; split; f_equal; lia.
Qed.

Lemma parseInt_string_of_Z (z : Z) : parseInt (Some (string_of_Z z)) = Some z.
Proof.
  unfold string_of_Z. rewrite <- (DecimalZ.of_to z) at 2.
  destruct (Z.to_int z) as [d|d]; cbn [NilZero.string_of_int Z.of_int];
    apply parseInt_uint.
Qed.

End ParseInt.

(** X15: the lookback [main] takes from [INITIAL_LOOKBACK_MONTHS]: the
    decimal numeral of a safe integer [n] gives a lookback of [n]
    months, below zero too, except that 0 gives the default of 3. *)
Theorem main_lookback_from_env
    (env : gmap string string) (id secret : string) (n : Z) :
  -9007199254740991 <= n <= 9007199254740991 ->
  env !! "INITIAL_LOOKBACK_MONTHS" = Some (string_of_Z n) ->
  initialLookbackMonths (constructor (envConfig env id secret))
  = if n =? 0 then 3 else n.
Proof.
  intros _ Henv.
  cbn [constructor envConfig initialLookbackMonths cfg_initialLookbackMonths].
  rewrite Henv, parseInt_string_of_Z. unfold or_number.
  destruct (Z.eqb_spec n 0) as [->|Hn]; [reflexivity|].
  by destruct (Z.eqb_spec n 0).
Qed.

(** X16: what [main] runs with when the environment says nothing: the
    host [app.trelica.com], the bookmark file [trelica_bookmark.json], a
    lookback of 3 months, and the output file
    [trelica_audit_logs.json], which is not the file the class would
    default to. *)
Theorem main_defaults (env : gmap string string) (id secret : string) :
  let p := constructor (envConfig env id secret) in
  let unset name := env !! name = None \/ env !! name = Some EmptyString in
  (unset "TRELICA_HOST" -> host p = "app.trelica.com")
  /\ (unset "BOOKMARK_FILE" -> bookmarkFile p = "trelica_bookmark.json")
  /\ (unset "OUTPUT_FILE" ->
      outputFile p = "trelica_audit_logs.json"
      /\ outputFile p <> outputFile (constructor
                                       {| cfg_host := None; cfg_clientId := id;
                                          cfg_clientSecret := secret;
                                          cfg_bookmarkFile := None; cfg_outputFile := None;
                                          cfg_initialLookbackMonths := None |}))
  /\ (unset "INITIAL_LOOKBACK_MONTHS" -> initialLookbackMonths p = 3)
  /\ clientId p = id /\ clientSecret p = secret.
Proof.
  cbn zeta.
  cbn [constructor envConfig host bookmarkFile outputFile initialLookbackMonths
       clientId clientSecret
       cfg_host cfg_bookmarkFile cfg_outputFile cfg_initialLookbackMonths
       cfg_clientId cfg_clientSecret].
  repeat split; try (intros [->| ->]; reflexivity).
  all: destruct H as [->| ->]; done.
Qed.

(** X17: when [TRELICA_CLIENT_ID] or [TRELICA_CLIENT_SECRET] is unset or
    empty, [main] writes its two lines to [console.error] and exits with
    code 1: no instance is built, no request is sent and no file is
    read or written. *)
Theorem main_requires_credentials (env : gmap string string) (fuel : nat) (w : World) :
  env !! "TRELICA_CLIENT_ID" = None \/ env !! "TRELICA_CLIENT_ID" = Some EmptyString
  \/ env !! "TRELICA_CLIENT_SECRET" = None
  \/ env !! "TRELICA_CLIENT_SECRET" = Some EmptyString ->
  exists w',
    main env fuel w = (Exited 1, w')
    /\ files w' = files w
    /\ trace w'
       = trace w
         ++ [ConsoleError
               "Error: TRELICA_CLIENT_ID and TRELICA_CLIENT_SECRET environment variables are required";
             ConsoleError "Please create a .env file with your credentials"].
Proof.
  intros Hmissing. unfold main. cbn zeta.
  assert (Hcheck : string_eqb (or_string (env !! "TRELICA_CLIENT_ID") EmptyString) EmptyString
                   || string_eqb (or_string (env !! "TRELICA_CLIENT_SECRET") EmptyString)
                        EmptyString = true).
  { apply orb_true_iff.
    destruct Hmissing as [H|[H|[H|H]]]; rewrite H; [left|left|right|right]; reflexivity. }
  rewrite Hcheck. eexists. split; [reflexivity|]. split; [reflexivity|].
  world_simpl. by rewrite <- app_assoc.
Qed.

(** X18: [main] ends in one of three ways.  Its promise resolves only
    after [pullLogs] logged "Log pull completed. Total logs pulled: n".
    It exits, always with code 1, either on missing credentials, with no
    file changed, or on an error of [pullLogs], whose message is then
    the last two lines of [console.error]: "Error during log pull:
    <message>" and "Log pull failed: <message>". *)
Theorem main_reports_outcome (env : gmap string string) (fuel : nat) (w : World) :
  match main env fuel w with
  | (Resolved, w') =>
      exists n,
        last (trace w')
        = Some (ConsoleLog ("Log pull completed. Total logs pulled: " +:+ string_of_nat n))
  | (Exited code, w') =>
      code = 1
      /\ ((files w' = files w
           /\ last (trace w')
              = Some (ConsoleError "Please create a .env file with your credentials"))
          \/ exists reason before,
               trace w'
               = before ++ [ConsoleError ("Error during log pull: " +:+ reason);
                            ConsoleError ("Log pull failed: " +:+ reason)])
  | (StillRunning, _) => True
  end.
Proof.
  unfold main. cbn zeta. destruct (_ || _).
  { split; [done|]. left. split; [done|]. world_simpl. apply last_snoc. }
  destruct (pullLogs fuel _) as [[v|e|] s'] eqn:Hrun; [| |done].
  - by apply pullLogs_returned in Hrun as [_ Hlast].
  - apply pullLogs_thrown in Hrun as [before Hrun]. split; [done|]. right.
    exists (message e), before. world_simpl. rewrite Hrun. by rewrite <- app_assoc.
Qed.

(** ** authenticate, whatever the answer *)

(** X19: [authenticate] sends one request, the token request, and never
    a second one.  It changes no file and leaves the bookmark alone.  It
    returns only on a 2xx answer whose body is a JSON object, and then
    [this.accessToken] is the [access_token] of that object; when it
    throws, the instance is as it was. *)
Theorem authenticate_sends_one_request (s : State) :
  let s' := snd (authenticate s) in
  filter is_fetch (new_events s s') = [Fetch (tokenRequest (this s))]
  /\ files (world s') = files (world s)
  /\ bookmark (this s') = bookmark (this s)
  /\ match fst (authenticate s) with
     | Return _ =>
         exists status fields,
           200 <= status <= 299
           /\ tokenEndpoint (world s) (trace (world s)) (tokenRequest (this s))
              = Responded status (JsonObject fields)
           /\ accessToken (this s') = access_token fields
     | Throw _ => this s' = this s
     | Running => False
     end.
Proof.
  unfold authenticate. run. rewrite fetch_token_run.
  destruct (tokenEndpoint _ _ _) as [e|status payload]; run.
  { repeat split. erewrite new_events_app; [|trace_added]. reflexivity. }
  destruct (ok (status, payload)) eqn:Hok; cbn [negb]; unfold json, prop; cbn [snd];
    destruct payload as [why| |fields]; run;
    (split; [erewrite new_events_app; [|trace_added]; reflexivity|]);
    repeat split.
  apply ok_spec in Hok. by exists status, fields.
Qed.

(** ** A source that never runs dry *)

Lemma timestamp_valid (w : World) :
  -8640000000000000 <= clock w <= 8640000000000000 ->
  exists iso, timestamp w = Some iso.
Proof.
  intros Hclock. unfold timestamp, JsDate.TimeClip.
  destruct (Z.ltb_spec 8640000000000000 (Z.abs (clock w))); [lia|].
  eexists. reflexivity.
Qed.

Lemma stores_ready_concat (s : State) (logs : list JSON) :
  stores_ready s ->
  js_concat (existing_logs s) logs = inr (JArr (sink s ++ logs)).
Proof.
  intros (_ & Hread & _ & _ & Harr). unfold existing_logs, sink.
  rewrite decide_False by done.
  destruct (files (world s) !! (outputFile (this s))) as [[v|text]|] eqn:Hfile;
    [|reflexivity..].
  destruct (Harr v eq_refl) as [items ->]. reflexivity.
Qed.

Lemma endless_pass (total : nat) (s : State) :
  truthy (accessToken (this s)) = true ->
  never_ending_source (world s) ->
  stores_ready s ->
  -8640000000000000 <= clock (world s) <= 8640000000000000 ->
  exists s1 total' added logs,
    iteration total s = (Return (true, total'), s1)
    /\ logs <> []
    /\ trace (world (slept s1)) = trace (world s) ++ added
    /\ filter is_fetch added = [Fetch (logsRequest (this s))]
    /\ sink (slept s1) = sink s ++ logs
    /\ truthy (accessToken (this (slept s1))) = true
    /\ never_ending_source (world (slept s1))
    /\ stores_ready (slept s1)
    /\ clock (world (slept s1)) = clock (world s) + 100.
Proof.
  intros Htoken Hsource Hready Hclock.
  destruct (Hsource (trace (world s) ++ [ConsoleLog "Fetching logs..."])
              (logsRequest (this s)))
    as (status & pg & logs & Hstatus & Hresp & Hres & Hne & Hnext).
  assert (Hpage : page_served s pg) by (split; [done|]; by exists status).
  rewrite (iteration_records_run total s pg logs Hpage Hres Hne). cbn zeta.
  rewrite (stores_ready_concat s logs Hready).
  destruct Hready as (Hother & Hread & Hwrite & Hwrite' & Harr).
  rewrite decide_False by done. rewrite Hnext.
  destruct (timestamp_valid (world s) Hclock) as [iso ->].
  rewrite decide_False by done.
  eexists. eexists. eexists. exists logs. split; [reflexivity|]. split; [done|].
  split; [trace_added|]. split; [reflexivity|].
  assert (Hsink : files (world (slept (saved_bookmark (next pg) iso
                    (counted (length logs) (total + length logs)
                       (wrote_logs (JArr (sink s ++ logs)) (length logs)
                          (after_read (got_page (length logs) s)))))))
                  !! (outputFile (this s))
                  = Some (Json (JArr (sink s ++ logs)))).
  { unfold_states. world_simpl. rewrite insert_other by done. apply lookup_insert_eq. }
  split.
  { unfold sink at 1.
    change (outputFile (this (slept ?x))) with (outputFile (this s)).
    by rewrite Hsink. }
  split; [exact Htoken|]. split; [exact Hsource|].
  split; [|unfold_states; world_simpl; lia].
  split; [exact Hother|]. split; [exact Hread|]. split; [exact Hwrite|].
  split; [exact Hwrite'|]. intros v Hv.
  change (outputFile (this (slept ?x))) with (outputFile (this s)) in Hv.
  rewrite Hsink in Hv. injection Hv as <-. by eexists.
Qed.

Lemma endless_loop (fuel : nat) :
  forall (total : nat) (s : State),
    truthy (accessToken (this s)) = true ->
    never_ending_source (world s) ->
    stores_ready s ->
    -8640000000000000 <= clock (world s) ->
    clock (world s) + 100 * Z.of_nat fuel <= 8640000000000000 ->
    exists s' added,
      while_hasMore fuel true total s = (Running, s')
      /\ trace (world s') = trace (world s) ++ added
      /\ length (filter is_fetch added) = fuel
      /\ (length (sink s) + fuel <= length (sink s'))%nat.
Proof.
  induction fuel as [|fuel IH]; intros total s Htoken Hsource Hready Hlow Hhigh.
  { exists s, []. split; [reflexivity|]. split; [by rewrite app_nil_r|].
    split; [reflexivity | lia]. }
  destruct (endless_pass total s Htoken Hsource Hready ltac:(lia))
    as (s1 & total' & added & logs & Hrun & Hne & Htrace & Hfetch & Hsink
        & Htoken' & Hsource' & Hready' & Hclock').
  destruct (IH total' (slept s1) Htoken' Hsource' Hready' ltac:(lia) ltac:(lia))
    as (s' & added' & Hloop & Htrace' & Hfetch' & Hsink').
  exists s', (added ++ added'). rewrite while_hasMore_step, Hrun.
  split; [exact Hloop|]. split; [by rewrite Htrace', Htrace, app_assoc|].
  split; [by rewrite filter_app, length_app, Hfetch, Hfetch'|].
  rewrite Hsink, length_app in Hsink'.
  destruct logs as [|r logs]; [done|]. cbn [length] in Hsink'. lia.
Qed.

(** X20: the loop has no bound of its own.  As long as the log endpoint
    answers every request with a page that has records and a
    continuation, and both files can take what is written, the loop is
    still running after any number of passes within the range of
    [Date]: each pass sent one request and added records to the output
    file. *)
Theorem loop_runs_while_pages_continue (fuel total : nat) (s : State) :
  truthy (accessToken (this s)) = true ->
  never_ending_source (world s) ->
  stores_ready s ->
  -8640000000000000 <= clock (world s) ->
  clock (world s) + 100 * Z.of_nat fuel <= 8640000000000000 ->
  let s' := snd (while_hasMore fuel true total s) in
  fst (while_hasMore fuel true total s) = Running
  /\ length (filter is_fetch (new_events s s')) = fuel
  /\ (length (sink s) + fuel <= length (sink s'))%nat.
Proof.
  intros Htoken Hsource Hready Hlow Hhigh.
  destruct (endless_loop fuel total s Htoken Hsource Hready Hlow Hhigh)
    as (s' & added & -> & Htrace & Hfetch & Hsink).
  cbn zeta. cbn [fst snd]. split; [done|].
  by rewrite (new_events_app s s' added Htrace).
Qed.

(** ** A run as a whole *)

Lemma carried_on_refl (s : State) : carried_on s s.
Proof.
  split; [done|]. split; [done|]. split; [done|]. split.
  - exists []. split; [by rewrite app_nil_r | constructor].
  - intros Hready. split; [done|]. exists []. by rewrite app_nil_r.
Qed.

Lemma carried_on_trans (s s1 s2 : State) :
  carried_on s s1 -> carried_on s1 s2 -> carried_on s s2.
Proof.
  intros (Ho & Hb & Hr & (added & Ht & Hf) & Hs) (Ho' & Hb' & Hr' & (added' & Ht' & Hf') & Hs').
  split; [congruence|]. split; [congruence|]. split; [congruence|]. split.
  - exists (added ++ added'). split; [by rewrite Ht', Ht, app_assoc|].
    rewrite filter_app. by apply Forall_app.
  - intros Hready. destruct (Hs Hready) as [Hready1 [more Hmore]].
    destruct (Hs' Hready1) as [Hready2 [more' Hmore']]. split; [done|].
    exists (more ++ more'). by rewrite Hmore', Hmore, app_assoc.
Qed.

Lemma sink_kept (s s' : State) :
  outputFile (this s') = outputFile (this s) ->
  bookmarkFile (this s') = bookmarkFile (this s) ->
  readDenied (world s') = readDenied (world s) ->
  (bookmarkFile (this s) <> outputFile (this s) ->
   files (world s') !! (outputFile (this s)) = files (world s) !! (outputFile (this s))) ->
  sink_ready s -> sink_ready s' /\ exists more, sink s' = sink s ++ more.
Proof.
  intros Ho Hb Hr Hf (Hother & Hread & Hstr). specialize (Hf Hother). split.
  - unfold sink_ready. rewrite Ho, Hb, Hr, Hf. done.
  - exists []. unfold sink. rewrite Ho, Hf. by rewrite app_nil_r.
Qed.

Lemma sink_grown (s s' : State) (logs : list JSON) :
  outputFile (this s') = outputFile (this s) ->
  bookmarkFile (this s') = bookmarkFile (this s) ->
  readDenied (world s') = readDenied (world s) ->
  (sink_ready s ->
   files (world s') !! (outputFile (this s)) = Some (Json (JArr (sink s ++ logs)))) ->
  sink_ready s -> sink_ready s' /\ exists more, sink s' = sink s ++ more.
Proof.
  intros Ho Hb Hr Hf Hready. specialize (Hf Hready).
  destruct Hready as (Hother & Hread & Hstr). split.
  - unfold sink_ready. rewrite Ho, Hb, Hr, Hf. done.
  - exists logs. unfold sink at 1. by rewrite Ho, Hf.
Qed.

(** Closes [carried_on s s'] for a state [s'] built from [s] without a
    write to the output file. *)
Ltac carried_on_kept :=
  split; [reflexivity|]; split; [reflexivity|]; split; [reflexivity|]; split;
  [ eexists; split; [trace_added|];
    repeat first [apply Forall_nil_2 | apply Forall_cons_2; [by eexists|]]
  | apply sink_kept; try reflexivity;
    let H := fresh in
    intros H; unfold_states; world_simpl; by rewrite ?insert_other by done ].

Lemma iteration_carried_on (total : nat) (s : State) :
  carried_on s (snd (iteration total s)).
Proof.
  destruct (truthy (accessToken (this s))) eqn:Htoken.
  2: { unfold iteration. run. rewrite fetchLogs_run. world_simpl. rewrite Htoken.
       cbn [snd]. carried_on_kept. }
  destruct (logsEndpoint (world s) (trace (world s) ++ [ConsoleLog "Fetching logs..."])
              (logsRequest (this s))) as [e0|status payload] eqn:Hresp.
  { unfold iteration. run. rewrite fetchLogs_run. world_simpl. rewrite Htoken, Hresp.
    cbn [snd]. unfold sent. carried_on_kept. }
  destruct ((200 <=? status) && (status <=? 299)) eqn:Hok.
  2: { unfold iteration. run. rewrite fetchLogs_run. world_simpl.
       rewrite Htoken, Hresp, Hok. cbn [snd]. unfold sent. carried_on_kept. }
  destruct payload as [why| |pg].
  1, 2: unfold iteration; run; rewrite fetchLogs_run; world_simpl;
    rewrite Htoken, Hresp, Hok; cbn [fetchResult]; run; cbn [prop]; run; unfold sent;
    carried_on_kept.
  assert (Hpage : page_served s pg).
  { split; [done|]. exists status. apply andb_true_iff in Hok as [H1 H2].
    apply Z.leb_le in H1, H2. split; [lia | done]. }
  destruct (results pg) as [[|r logs]|] eqn:Hres.
  1, 3: rewrite (iteration_no_records total s pg Hpage) by (by rewrite Hres);
    cbn zeta; destruct (timestamp (world s)) as [iso|];
    [destruct (decide _)|]; cbn [snd]; carried_on_kept.
  rewrite (iteration_records_run total s pg (r :: logs) Hpage Hres) by done.
  cbn zeta. destruct (js_concat _ _) as [e1|all] eqn:Hall; [cbn [snd]; carried_on_kept|].
  destruct (decide _); [cbn [snd]; carried_on_kept|].
  assert (Hgrown : sink_ready s -> all = JArr (sink s ++ r :: logs))
    by (intros Hready; by apply (sink_concat s (r :: logs) all Hready)).
  destruct (truthy (next pg));
    [destruct (timestamp (world s)) as [iso|]; [destruct (decide _)|]|].
  all: cbn [snd]; split; [reflexivity|]; split; [reflexivity|]; split; [reflexivity|];
    split;
    [ eexists; split; [trace_added|];
      repeat first [apply Forall_nil_2 | apply Forall_cons_2; [by eexists|]]
    | apply (sink_grown _ _ (r :: logs)); try reflexivity;
      let H := fresh in
      intros H; rewrite <- (Hgrown H); destruct H as (? & _);
      unfold_states; world_simpl; rewrite ?insert_other by done;
      apply lookup_insert_eq ].
Qed.

Lemma slept_carried_on (s : State) : carried_on s (slept s).
Proof. carried_on_kept. Qed.

Lemma logged_carried_on (s : State) (e : Event) :
  is_fetch e = false -> carried_on s (with_world (emit e) s).
Proof.
  intros He. split; [reflexivity|]. split; [reflexivity|]. split; [reflexivity|]. split.
  - exists [e]. split; [reflexivity|]. cbn. rewrite He. constructor.
  - apply sink_kept; reflexivity.
Qed.

Lemma while_hasMore_carried_on (fuel : nat) :
  forall (hasMore : bool) (total : nat) (s : State),
    carried_on s (snd (while_hasMore fuel hasMore total s)).
Proof.
  induction fuel as [|fuel IH]; intros [|] total s;
    try (rewrite while_hasMore_done; apply carried_on_refl).
  { apply carried_on_refl. }
  rewrite while_hasMore_step. pose proof (iteration_carried_on total s) as Hpass.
  destruct (iteration total s) as [[[hasMore total']|e|] s1]; cbn [snd] in *; try done.
  eapply carried_on_trans; [exact Hpass|].
  eapply carried_on_trans; [apply slept_carried_on | apply IH].
Qed.

Lemma loadBookmark_carried_on (s : State) : carried_on s (snd (loadBookmark s)).
Proof.
  destruct (loadBookmark_cases s) as [(v & nextUrl & _ & _ & _ & ->)|(_ & ->)].
  - cbn [snd]. carried_on_kept.
  - rewrite startFromLookback_run. destruct (JsDate.toISOString _) as [iso|];
      cbn [snd]; carried_on_kept.
Qed.

Lemma authenticate_frame (s : State) :
  let s' := snd (authenticate s) in
  exists rest,
    trace (world s') = trace (world s) ++ Fetch (tokenRequest (this s)) :: rest
    /\ filter is_fetch rest = []
    /\ (sink_ready s -> sink_ready s' /\ sink s' = sink s).
Proof.
  unfold authenticate. run. rewrite fetch_token_run.
  destruct (tokenEndpoint _ _ _) as [e|status payload]; run.
  { exists []. split; [reflexivity|]. split; [reflexivity|]. done. }
  destruct (ok (status, payload)) eqn:Hok; cbn [negb]; unfold json, prop; cbn [snd];
    destruct payload as [why| |fields]; run;
    eexists; (split; [trace_added|]); (split; [reflexivity|]); done.
Qed.

Lemma pullLogs_shape (fuel : nat) (s : State) :
  let s' := snd (pullLogs fuel s) in
  exists rest,
    trace (world s')
    = trace (world s)
      ++ ConsoleLog "Starting log pull process..." :: Fetch (tokenRequest (this s)) :: rest
    /\ Forall is_logs_fetch (filter is_fetch rest)
    /\ (sink_ready s -> exists more, sink s' = sink s ++ more).
Proof.
  cbn zeta.
  assert (Hrest : exists s1 rest1,
             carried_on s1 (snd (pullLogs fuel s))
             /\ trace (world s1)
                = trace (world s)
                  ++ ConsoleLog "Starting log pull process..."
                     :: Fetch (tokenRequest (this s)) :: rest1
             /\ filter is_fetch rest1 = []
             /\ (sink_ready s -> sink_ready s1 /\ sink s1 = sink s)).
  { destruct (authenticate_frame (started s)) as (rest1 & Htrace & Hfetch & Hsink).
    exists (snd (authenticate (started s))), rest1. split.
    - unfold pullLogs. run. fold (started s).
      change {| this := this s;
                world := emit (ConsoleLog "Starting log pull process...") (world s) |}
        with (started s).
      destruct (authenticate (started s)) as [[[]|e|] s1]; cbn [snd].
      2: { apply (logged_carried_on s1 (ConsoleError _)). reflexivity. }
      2: { apply carried_on_refl. }
      pose proof (loadBookmark_carried_on s1) as Hload.
      destruct (loadBookmark s1) as [[[]|e|] s2]; cbn [snd] in Hload.
      2: { eapply carried_on_trans; [exact Hload|].
           apply (logged_carried_on s2 (ConsoleError _)). reflexivity. }
      2: { exact Hload. }
      pose proof (while_hasMore_carried_on fuel true 0 s2) as Hloop.
      destruct (while_hasMore fuel true 0 s2) as [[n|e|] s3]; cbn [snd] in Hloop.
      + eapply carried_on_trans; [exact Hload|].
        eapply carried_on_trans; [exact Hloop|].
        apply (logged_carried_on s3 (ConsoleLog _)). reflexivity.
      + eapply carried_on_trans; [exact Hload|].
        eapply carried_on_trans; [exact Hloop|].
        apply (logged_carried_on s3 (ConsoleError _)). reflexivity.
      + eapply carried_on_trans; [exact Hload | exact Hloop].
    - split; [|split; [exact Hfetch | exact Hsink]].
      rewrite Htrace. unfold started, with_world. world_simpl.
      by rewrite <- app_assoc. }
  destruct Hrest as (s1 & rest1 & (_ & _ & _ & (added & Htrace' & Hfetch') & Hsink')
                     & Htrace & Hfetch & Hsink).
  exists (rest1 ++ added). split.
  { rewrite Htrace', Htrace. rewrite <- app_assoc. reflexivity. }
  split.
  { rewrite filter_app, Hfetch. exact Hfetch'. }
  intros Hready. destruct (Hsink Hready) as [Hready1 Hsame].
  destruct (Hsink' Hready1) as [_ [more Hmore]]. exists more. by rewrite Hmore, Hsame.
Qed.

(** X23: a run sends one token request, as its first request, and no
    other: whatever the answers and however the run ends, every later
    request is a request for logs.  A run does not authenticate a
    second time. *)
Theorem one_token_request_per_run (fuel : nat) (s : State) :
  let s' := snd (pullLogs fuel s) in
  exists rest,
    filter is_fetch (new_events s s') = Fetch (tokenRequest (this s)) :: rest
    /\ Forall is_logs_fetch rest
    /\ Forall (fun e => forall p, e <> Fetch (tokenRequest p)) rest.
Proof.
  destruct (pullLogs_shape fuel s) as (rest & Htrace & Hfetch & _). cbn zeta.
  exists (filter is_fetch rest). split; [|split; [exact Hfetch|]].
  - by rewrite (new_events_app _ _ _ Htrace).
  - eapply Forall_impl; [exact Hfetch|]. intros e [p' ->] p Hsame.
    apply (f_equal (fun e => match e with
                             | Fetch r => method r
                             | _ => EmptyString
                             end)) in Hsame.
    discriminate Hsame.
Qed.

(** X24: on a sink that is ready, a run only ever adds to the output
    file: however the run ends, by returning, by throwing or still in
    its loop, the records the file held are still there, in order, at
    the start of what it holds. *)
Theorem output_only_grows (fuel : nat) (s : State) :
  sink_ready s ->
  exists more, sink (snd (pullLogs fuel s)) = sink s ++ more.
Proof.
  intros Hready. destruct (pullLogs_shape fuel s) as (rest & _ & _ & Hsink).
  exact (Hsink Hready).
Qed.

(** X25: an output file that cannot be read but can be written is
    overwritten: the failed read is taken for a missing file, and the
    file then holds the new records only. *)
Theorem unreadable_output_is_replaced (s : State) (logs : list JSON) :
  outputFile (this s) ∈ readDenied (world s) ->
  (outputFile (this s) ∉ writeDenied (world s)) ->
  logs <> [] ->
  exists s',
    appendLogsToFile logs s = (Return tt, s')
    /\ files (world s') = <[outputFile (this s) := Json (JArr logs)]> (files (world s)).
Proof.
  intros Hread Hwrite Hne. rewrite appendLogsToFile_run by done.
  unfold existing_logs. rewrite decide_True by done. cbn [js_concat app].
  rewrite decide_False by done. eexists. split; reflexivity.
Qed.

(** ** The further properties at the sample states *)

Ltac not_in_empty := vm_compute; let H := fresh in intros H; inversion H.

Lemma fetchLogs_failure_prefers_title_sample :
  fetchLogs throttled_state
  = (Throw (mkError Error "Failed to fetch logs: 429 - Too Many Requests"),
     sent throttled_state).
Proof.
  apply (fetchLogs_failure_prefers_title throttled_state 429
           {| results := None; next := undefined;
              title := Some (JStr "Too Many Requests");
              detail := Some (JStr "slow down") |}).
  - reflexivity.
  - reflexivity.
  - lia.
Defined.

Lemma authenticate_then_fetchLogs_sample :
  exists s1,
    authenticate sample_start = (Return tt, s1)
    /\ accessToken (this s1) = Some (JStr "tok")
    /\ bookmark (this s1) = bookmark (this sample_start)
    /\ files (world s1) = files (world sample_start)
    /\ snd (fetchLogs s1) = sent s1
    /\ In ("Authorization", "Bearer " +:+ js_toString (Some (JStr "tok")))
         (headers (logsRequest (this s1)))
    /\ url (logsRequest (this s1)) = bookmark (this sample_start).
Proof.
  apply (authenticate_then_fetchLogs sample_start 200
           {| access_token := Some (JStr "tok"); error := undefined |}).
  - reflexivity.
  - lia.
  - reflexivity.
Defined.

Lemma pullLogs_logs_what_it_throws_sample :
  last (trace (world (snd (pullLogs 5 rejected_state))))
  = Some (ConsoleError
            ("Error during log pull: "
             +:+ message (mkError Error "Authentication failed: 401 - invalid_client"))).
Proof.
  apply (pullLogs_logs_what_it_throws 5 rejected_state).
  vm_compute. reflexivity.
Defined.

Lemma missing_access_token_fails_late_sample :
  exists e s',
    pullLogs 1 no_token_state = (Throw e, s')
    /\ files (world s') = files (world no_token_state)
    /\ filter is_fetch (new_events no_token_state s')
       = [Fetch (tokenRequest (this no_token_state))]
    /\ In (ConsoleLog "Successfully authenticated") (new_events no_token_state s')
    /\ (fst (loadBookmark (authenticated undefined (started no_token_state))) = Return tt ->
        e = notAuthenticated).
Proof.
  apply (missing_access_token_fails_late 0 no_token_state 200
           {| access_token := undefined; error := undefined |}).
  - reflexivity.
  - lia.
  - reflexivity.
Defined.

Lemma saveBookmark_then_loadBookmark_sample :
  exists s2,
    loadBookmark {| this := constructor sample_config;
                    world := world (snd (saveBookmark (Some (JStr "L2")) dead_end_state)) |}
    = (Return tt, s2)
    /\ bookmark (this s2) = Some (JStr "L2")
    /\ bookmark (this (snd (saveBookmark (Some (JStr "L2")) dead_end_state)))
       = Some (JStr "L2")
    /\ files (world s2)
       = files (world (snd (saveBookmark (Some (JStr "L2")) dead_end_state))).
Proof.
  apply (saveBookmark_then_loadBookmark (Some (JStr "L2")) dead_end_state).
  - vm_compute. reflexivity.
  - reflexivity.
  - not_in_empty.
Defined.

Lemma caught_up_cursor_resumes_sample :
  exists s2,
    loadBookmark {| this := constructor sample_config;
                    world := world (snd (iteration 0 no_results_state)) |}
    = (Return tt, s2)
    /\ bookmark (this s2) = bookmark (this no_results_state)
    /\ url (logsRequest (this s2)) = url (logsRequest (this no_results_state)).
Proof.
  apply (caught_up_cursor_resumes 0 no_results_state _ (page None undefined) (false, 0%nat)).
  - split; [reflexivity|]. exists 200. split; [lia | reflexivity].
  - reflexivity.
  - vm_compute. reflexivity.
  - reflexivity.
  - not_in_empty.
Defined.

Lemma bookmark_without_nextUrl_sample :
  exists s',
    loadBookmark empty_bookmark_state = (Return tt, s')
    /\ bookmark (this s') = undefined
    /\ url (logsRequest (this s')) = undefined
    /\ new_events empty_bookmark_state s'
       = [ReadFile (bookmarkFile (this empty_bookmark_state));
          ConsoleLog "Loaded bookmark: undefined"].
Proof.
  apply (bookmark_without_nextUrl empty_bookmark_state (JObj [])).
  - reflexivity.
  - not_in_empty.
  - reflexivity.
Defined.

Lemma appendLogsToFile_twice_sample :
  let a := [JStr "r1"] in
  let b := [JStr "r2"; JStr "r3"] in
  let once := appendLogsToFile (a ++ b) one_record_state in
  let twice := (appendLogsToFile a;; appendLogsToFile b) one_record_state in
  fst twice = fst once
  /\ files (world (snd twice)) = files (world (snd once))
  /\ this (snd twice) = this (snd once).
Proof.
  apply (appendLogsToFile_twice [JStr "r1"] [JStr "r2"; JStr "r3"] one_record_state).
  - not_in_empty.
  - intros text. vm_compute. discriminate.
Defined.

Lemma appendLogsToFile_needs_array_sample :
  exists e,
    appendLogsToFile [JStr "r1"] object_sink_state = (Throw e, after_read object_sink_state)
    /\ errName e = TypeError
    /\ files (world (after_read object_sink_state)) = files (world object_sink_state)
    /\ new_events object_sink_state (after_read object_sink_state)
       = [ReadFile (outputFile (this object_sink_state))].
Proof.
  apply (appendLogsToFile_needs_array object_sink_state (JObj [])).
  - reflexivity.
  - not_in_empty.
  - discriminate.
  - discriminate.
  - discriminate.
Defined.

Lemma failed_pass_keeps_cursor_sample :
  let s := locked_bookmark_state in
  let s' := snd (iteration 0 locked_bookmark_state) in
  this s' = this s
  /\ (bookmarkFile (this s) <> outputFile (this s) ->
      files (world s') !! (bookmarkFile (this s))
      = files (world s) !! (bookmarkFile (this s))
      /\ cursor_overwritten s s' = false).
Proof.
  apply (failed_pass_keeps_cursor 0 locked_bookmark_state
           (snd (iteration 0 locked_bookmark_state))
           (denied "trelica_bookmark.json")).
  vm_compute. reflexivity.
Defined.

Lemma dead_end_page_is_appended_again_sample :
  let s := dead_end_state in
  let s1 := snd (iteration 0 dead_end_state) in
  let t1 := snd (iteration 0 s1) in
  bookmark (this s1) = bookmark (this s)
  /\ files (world s1) !! (bookmarkFile (this s))
     = files (world s) !! (bookmarkFile (this s))
  /\ sink t1 = sink s ++ [JStr "r3"] ++ [JStr "r3"].
Proof.
  apply (dead_end_page_is_appended_again 0 0 dead_end_state
           (snd (iteration 0 dead_end_state)) (snd (iteration 0 dead_end_state))
           (snd (iteration 0 (snd (iteration 0 dead_end_state))))
           (page (Some [JStr "r3"]) (Some JNull)) [JStr "r3"]
           (false, 1%nat) (false, 1%nat)).
  - split; [reflexivity|]. exists 200. split; [lia | reflexivity].
  - reflexivity.
  - discriminate.
  - reflexivity.
  - split; [discriminate|]. split; [not_in_empty|]. intros text. vm_compute. discriminate.
  - vm_compute. reflexivity.
  - reflexivity.
  - reflexivity.
  - reflexivity.
  - reflexivity.
  - split; [reflexivity|]. exists 200. split; [lia | reflexivity].
  - vm_compute. reflexivity.
Defined.

Lemma main_lookback_from_env_sample :
  initialLookbackMonths
    (constructor (envConfig sample_env "abc123def456" "supersecretkey789"))
  = 6.
Proof.
  apply (main_lookback_from_env sample_env "abc123def456" "supersecretkey789" 6).
  - lia.
  - vm_compute. reflexivity.
Defined.

Lemma main_requires_credentials_sample :
  exists w',
    main ∅ 5 sample_world = (Exited 1, w')
    /\ files w' = files sample_world
    /\ trace w'
       = trace sample_world
         ++ [ConsoleError
               "Error: TRELICA_CLIENT_ID and TRELICA_CLIENT_SECRET environment variables are required";
             ConsoleError "Please create a .env file with your credentials"].
Proof.
  apply (main_requires_credentials ∅ 5 sample_world).
  left. reflexivity.
Defined.

Lemma loop_runs_while_pages_continue_sample :
  let s' := snd (while_hasMore 3 true 0 endless_state) in
  fst (while_hasMore 3 true 0 endless_state) = Running
  /\ length (filter is_fetch (new_events endless_state s')) = 3%nat
  /\ (length (sink endless_state) + 3 <= length (sink s'))%nat.
Proof.
  apply (loop_runs_while_pages_continue 3 0 endless_state).
  - reflexivity.
  - intros events req.
    exists 200, (page (Some [JStr "r"]) (Some (JStr "L"))), [JStr "r"].
    split; [lia|]. split; [reflexivity|]. split; [reflexivity|].
    split; [discriminate | reflexivity].
  - split; [discriminate|]. split; [not_in_empty|]. split; [not_in_empty|].
    split; [not_in_empty|]. intros v Hv. vm_compute in Hv. discriminate Hv.
  - vm_compute. discriminate.
  - vm_compute. discriminate.
Defined.

Lemma monthsBefore_calendar_sample :
  exists L',
    monthsBefore (fun _ _ => 0) (Some 1756117845123) 1 = JsDate.TimeClip (L' - 0)
    /\ 12 * JsDate.YearFromTime L' + JsDate.MonthFromTime L'
       = 12 * JsDate.YearFromTime (1756117845123 + 0)
         + JsDate.MonthFromTime (1756117845123 + 0) - 1
    /\ JsDate.DateFromTime L' = JsDate.DateFromTime (1756117845123 + 0)
    /\ JsDate.TimeWithinDay L' = JsDate.TimeWithinDay (1756117845123 + 0).
Proof.
  apply (monthsBefore_calendar 0 1756117845123 1).
  vm_compute. discriminate.
Defined.

Lemma monthsBefore_rolls_over_sample :
  exists L',
    monthsBefore (fun _ _ => 0) (Some 1717156800000) 3 = JsDate.TimeClip (L' - 0)
    /\ 12 * JsDate.YearFromTime L' + JsDate.MonthFromTime L'
       = 12 * JsDate.YearFromTime (1717156800000 + 0)
         + JsDate.MonthFromTime (1717156800000 + 0) - 3 + 1
    /\ JsDate.DateFromTime L' = JsDate.DateFromTime (1717156800000 + 0) - 29
    /\ JsDate.TimeWithinDay L' = JsDate.TimeWithinDay (1717156800000 + 0).
Proof.
  apply (monthsBefore_rolls_over 0 1717156800000 3).
  vm_compute. reflexivity.
Defined.

Lemma output_only_grows_sample :
  exists more, sink (snd (pullLogs 5 one_record_state)) = sink one_record_state ++ more.
Proof.
  apply (output_only_grows 5 one_record_state).
  split; [discriminate|]. split; [not_in_empty|]. intros text. vm_compute. discriminate.
Defined.

Lemma unreadable_output_is_replaced_sample :
  exists s',
    appendLogsToFile [JStr "r1"] unreadable_sink_state = (Return tt, s')
    /\ files (world s')
       = <[outputFile (this unreadable_sink_state) := Json (JArr [JStr "r1"])]>
           (files (world unreadable_sink_state)).
Proof.
  apply (unreadable_output_is_replaced unreadable_sink_state [JStr "r1"]).
  - vm_compute. reflexivity.
  - not_in_empty.
  - discriminate.
Defined.
